(** * Chunked CSV quality analysis and transformation

    A shallow embedding of [server/controllers/csv_controller.py]:
    [allowed_file], [safe_convert_value], [analyze_csv_quality_chunked],
    [preprocess_csv_task_chunked] and [apply_preprocessing_options],
    together with the part of pandas, the file system and the Redis
    connection these functions go through.

    Conventions.
    - Python [int] is [Z]; a Python [float] that the code computes by
      true division and [round(_, 2)] is an exact rational [Qc]
      (binary64 rounding is not represented).
    - A Python [dict] keyed by column name is a [gmap string _].
    - A CSV file on disk is kept after tokenisation: a header and
      records of optional text cells, [None] being a cell that pandas
      reads as missing.  Records are brought to the width of the header
      when they are read (short records are padded with missing cells).
    - A call that can raise returns a [result]: [Ok v], or [Raise msg]
      with the message of the exception; code under [try ... except]
      is a [match] on that result. *)

From Stdlib Require Import ZArith QArith Qcanon Qround SpecFloat Ascii String.
From stdpp Require Import gmap strings list fin_maps numbers pretty sorting.

Local Open Scope string_scope.
Local Open Scope list_scope.
Local Open Scope Z_scope.

(** ** Python string methods used by the controller *)

(** A text is a string of bytes.  [strip] and [lower] below are
    Python's [str.strip] and [str.lower] on ASCII text; on a text with
    a character outside ASCII Python also lowers capitals such as
    U+00C9 and strips white space such as U+00A0, which these
    definitions leave in place.  [is_ascii_text] is the domain on
    which they agree with Python: a statement that applies them to the
    labels of an arbitrary file assumes it of the labels. *)

Module PyStr.

(** [str.isspace] on one ASCII character: TAB, LF, VT, FF, CR,
    FS, GS, RS, US and SPACE. *)
Definition is_space (c : ascii) : bool :=
  let n := nat_of_ascii c in
  ((9 <=? n)%nat && (n <=? 13)%nat) || ((28 <=? n)%nat && (n <=? 32)%nat).

Fixpoint lstrip (s : string) : string :=
  match s with
  | String c s' => if is_space c then lstrip s' else s
  | EmptyString => EmptyString
  end.

(** The text without its trailing white space; recursion from the
    right: a character is kept when it is not white space or when
    something is kept after it. *)
Fixpoint rstrip (s : string) : string :=
  match s with
  | EmptyString => EmptyString
  | String c s' =>
      match rstrip s' with
      | EmptyString => if is_space c then EmptyString else String c EmptyString
      | r => String c r
      end
  end.

(** [s.strip()] *)
Definition strip (s : string) : string := rstrip (lstrip s).

(** [str.lower] on ASCII letters; other bytes are kept. *)
Definition lower_char (c : ascii) : ascii :=
  let n := nat_of_ascii c in
  if ((65 <=? n)%nat && (n <=? 90)%nat) then ascii_of_nat (n + 32) else c.

Fixpoint lower (s : string) : string :=
  match s with
  | EmptyString => EmptyString
  | String c s' => String (lower_char c) (lower s')
  end.

Fixpoint starts_with (p s : string) : bool :=
  match p, s with
  | EmptyString, _ => true
  | String a p', String b s' => if Ascii.eqb a b then starts_with p' s' else false
  | String _ _, EmptyString => false
  end.

(** [s.replace(old, new)] for a non-empty [old]: occurrences are
    found left to right and do not overlap.  [skip] counts the
    characters of the occurrence just replaced that are still to be
    passed over. *)
Fixpoint replace_from (old new s : string) (skip : nat) : string :=
  match s with
  | EmptyString => EmptyString
  | String c s' =>
      match skip with
      | S k => replace_from old new s' k
      | O =>
          if starts_with old s
          then (new ++ replace_from old new s' (String.length old - 1))%string
          else String c (replace_from old new s' 0)
      end
  end.

(** With an empty [old], Python puts [new] before every character
    and at the end. *)
Fixpoint intersperse (new s : string) : string :=
  match s with
  | EmptyString => new
  | String c s' => (new ++ String c (intersperse new s'))%string
  end.

Definition replace (old new s : string) : string :=
  match old with
  | EmptyString => intersperse new s
  | _ => replace_from old new s 0
  end.

(** [s.isascii()] *)
Fixpoint is_ascii_text (s : string) : bool :=
  match s with
  | EmptyString => true
  | String c s' => (nat_of_ascii c <? 128)%nat && is_ascii_text s'
  end.

End PyStr.

(** ** Cell values, JSON values and data frames *)

(** The scalars a frame read by [pd.read_csv] holds.  A missing cell is
    the float NaN, as in pandas. *)
Inductive value :=
| VInt (n : Z)             (* numpy integer *)
| VFloat (x : spec_float)  (* numpy float; [S754_nan] is NaN *)
| VBool (b : bool)
| VStr (s : string).

Definition NaN : value := VFloat S754_nan.

(** What [safe_convert_value] returns: a JSON-serialisable Python value. *)
Inductive json :=
| JNull
| JInt (n : Z)
| JFloat (x : spec_float)
| JBool (b : bool)
| JStr (s : string).

Inductive dtype := int64 | float64 | bool_ | object_.

(** [str(dtype)] *)
Definition dtype_name (d : dtype) : string :=
  match d with
  | int64 => "int64"
  | float64 => "float64"
  | bool_ => "bool"
  | object_ => "object"
  end.

Global Instance spec_float_eq_dec : EqDecision spec_float.
Proof. solve_decision. Defined.
Global Instance value_eq_dec : EqDecision value.
Proof. solve_decision. Defined.
Global Instance json_eq_dec : EqDecision json.
Proof. solve_decision. Defined.
Global Instance dtype_eq_dec : EqDecision dtype.
Proof. solve_decision. Defined.

(** [pd.isna(value)] on a scalar *)
Definition isna (v : value) : bool :=
  match v with
  | VFloat S754_nan => true
  | _ => false
  end.

(** Equality of two cells as pandas' hash tables decide it in
    [duplicated] and [drop_duplicates]: floats by [==] with NaN equal
    to NaN, everything else by value. *)
Definition value_eqb (a b : value) : bool :=
  match a, b with
  | VFloat x, VFloat y => SFeqb x y || (isna a && isna b)
  | _, _ => bool_decide (a = b)
  end.

Fixpoint row_eqb (r1 r2 : list value) : bool :=
  match r1, r2 with
  | [], [] => true
  | a :: r1', b :: r2' => value_eqb a b && row_eqb r1' r2'
  | _, _ => false
  end.

(** A column of a frame. *)
Record Series := { s_dtype : dtype; s_values : list value }.

(** A frame: column labels, one dtype per column and the rows. *)
Record DataFrame := {
  columns : list string;
  dtypes : list dtype;
  rows : list (list value)
}.

Module Pd.

(** [len(df)] *)
Definition len (df : DataFrame) : Z := Z.of_nat (length (rows df)).

Fixpoint index_of (col : string) (cols : list string) : option nat :=
  match cols with
  | [] => None
  | c :: cols' => if String.eqb col c then Some O else S <$> index_of col cols'
  end.

(** [df[col]]; [None] stands for the [KeyError] of an unknown label. *)
Definition getitem (df : DataFrame) (col : string) : option Series :=
  i ← index_of col (columns df);
  Some {| s_dtype := nth i (dtypes df) object_;
          s_values := (λ r, nth i r NaN) <$> rows df |}.

(** [int(s.isnull().sum())] *)
Definition isnull_sum (s : Series) : Z :=
  Z.of_nat (length (filter (λ v, isna v = true) (s_values s))).

(** [s.dropna()] *)
Definition dropna (vs : list value) : list value :=
  filter (λ v, isna v = false) vs.

(** [s.unique()]: the distinct values in order of first appearance. *)
Fixpoint unique_acc (seen vs : list value) : list value :=
  match vs with
  | [] => []
  | v :: vs' =>
      if existsb (value_eqb v) seen then unique_acc seen vs'
      else v :: unique_acc (v :: seen) vs'
  end.
Definition unique (vs : list value) : list value := unique_acc [] vs.

(** [df.duplicated()], keep='first': a row is marked when an equal
    row comes before it. *)
Fixpoint duplicated_acc (seen rs : list (list value)) : list bool :=
  match rs with
  | [] => []
  | r :: rs' =>
      if existsb (row_eqb r) seen then true :: duplicated_acc seen rs'
      else false :: duplicated_acc (r :: seen) rs'
  end.
Definition duplicated (df : DataFrame) : list bool := duplicated_acc [] (rows df).

(** [int(df.duplicated().sum())] *)
Definition duplicated_sum (df : DataFrame) : Z :=
  Z.of_nat (length (filter (λ b, b = true) (duplicated df))).

(** [df.drop_duplicates()]: the rows that are not marked. *)
Fixpoint drop_duplicates_acc (seen rs : list (list value)) : list (list value) :=
  match rs with
  | [] => []
  | r :: rs' =>
      if existsb (row_eqb r) seen then drop_duplicates_acc seen rs'
      else r :: drop_duplicates_acc (r :: seen) rs'
  end.
Definition drop_duplicates (df : DataFrame) : DataFrame :=
  {| columns := columns df; dtypes := dtypes df;
     rows := drop_duplicates_acc [] (rows df) |}.

(** [df.dropna()]: the rows without a missing cell. *)
Definition dropna_rows (df : DataFrame) : DataFrame :=
  {| columns := columns df; dtypes := dtypes df;
     rows := filter (λ r, forallb (λ v, negb (isna v)) r = true) (rows df) |}.

End Pd.

(** ** Exceptions *)

(** The outcome of a Python call: a value, or a raised exception with
    its message [str(e)]. *)
Inductive result (A : Type) :=
| Ok (a : A)
| Raise (msg : string).
Arguments Ok {A} a.
Arguments Raise {A} msg.

Global Instance result_ret : MRet result := λ A a, Ok a.
Global Instance result_bind : MBind result := λ A B f m,
  match m with
  | Ok a => f a
  | Raise msg => Raise msg
  end.

(** ** Numbers *)

Module Num.

Definition of_Z (n : Z) : Qc := Qc_of_Z n.

(** [int(x)] on a float: truncation towards zero. *)
Definition int (x : Qc) : Z := Z.quot (Qnum x) (Z.pos (Qden x)).

(** Rounding to the nearest integer, ties to the even one. *)
Definition round_half_even (x : Qc) : Z :=
  let f := Qfloor x in
  let r := (x - of_Z f)%Qc in
  let half := (1 / 2)%Qc in
  if decide (r < half)%Qc then f
  else if decide (half < r)%Qc then f + 1
  else if Z.even f then f else f + 1.

(** [round(x, 2)] *)
Definition round2 (x : Qc) : Qc :=
  (of_Z (round_half_even (x * of_Z 100)) / of_Z 100)%Qc.

End Num.

(** ** Files *)

(** A parseable CSV file: its size in bytes, the header and the data
    records.  The header is the list of column labels as pandas reads
    them; pandas renames a repeated name, so the labels of a file are
    distinct. *)
Record csv_file := {
  file_size : Z;
  header : list string;
  records : list (list (option string))
}.

(** What a path holds.  [Csv c] is a file that pandas parses to its
    end: it has no bad line.  [Unparseable size err] is [size] bytes
    in which pandas meets an error before it has read a first batch
    of rows: an empty file ([EmptyDataError]) or a bad line among the
    first [CHUNK_SIZE] rows ([ParserError]), [err] being the message.
    On such a file every function of the controller raises [err]
    before it writes anything; which of its reads raises is not
    modelled, the first one does here.  A file whose first batch
    parses and that has a bad line further down is neither: a
    streaming run writes its first batches before it fails on it.
    Such a file is not represented, and nothing is stated about it. *)
Inductive file :=
| Unparseable (size : Z) (err : string)
| Csv (c : csv_file).

Definition CHUNK_SIZE : nat := Z.to_nat 10000.

Module Reader.

Definition open_csv (fs : gmap string file) (path : string) : result csv_file :=
  match fs !! path with
  | None => Raise ("[Errno 2] No such file or directory: '" ++ path ++ "'")%string
  | Some (Unparseable _ err) => Raise err
  | Some (Csv c) => Ok c
  end.

(** [os.path.getsize(path)] *)
Definition getsize (fs : gmap string file) (path : string) : result Z :=
  match fs !! path with
  | None => Raise ("[Errno 2] No such file or directory: '" ++ path ++ "'")%string
  | Some (Unparseable size _) => Ok size
  | Some (Csv c) => Ok (file_size c)
  end.

(** A record at the width of the header. *)
Definition fit (width : nat) (r : list (option string)) : list (option string) :=
  take width (r ++ replicate width None).

(** A cell read with [dtype=str]: the text itself, or NaN. *)
Definition text_cell (c : option string) : value :=
  match c with
  | None => NaN
  | Some s => VStr s
  end.

(** The frame pandas builds from records with [dtype=str]: every
    column has dtype object. *)
Definition frame_of_text (hdr : list string) (recs : list (list (option string))) : DataFrame :=
  {| columns := hdr;
     dtypes := replicate (length hdr) object_;
     rows := (λ r, text_cell <$> fit (length hdr) r) <$> recs |}.

(** The first [nrows] records; a negative [nrows] is a [ValueError]. *)
Definition head_records (nrows : Z) (recs : list (list (option string)))
  : result (list (list (option string))) :=
  if (nrows <? 0)%Z then Raise "'nrows' must be an integer >=0"
  else Ok (take (Z.to_nat nrows) recs).

(** [pd.read_csv(path, nrows=nrows, dtype=str, low_memory=False)],
    with the default engine. *)
Definition read_csv_str (fs : gmap string file) (path : string) (nrows : Z)
  : result DataFrame :=
  c ← open_csv fs path;
  recs ← head_records nrows (records c);
  Ok (frame_of_text (header c) recs).

(** [pd.read_csv(path, nrows=nrows, dtype=str, low_memory=False,
    engine="python", on_bad_lines="skip")]: pandas checks the options
    before it opens the file and refuses [low_memory], set to another
    value than its default, with the python engine.  The call raises
    this [ValueError] whatever the path and [nrows]. *)
Definition read_csv_str_python (fs : gmap string file) (path : string) (nrows : Z)
  : result DataFrame :=
  Raise "The 'low_memory' option is not supported with the 'python' engine".

(** Successive slices of [n] elements; [fuel] bounds the number of
    slices. *)
Fixpoint slices {A} (fuel n : nat) (l : list A) : list (list A) :=
  match fuel, l with
  | S fuel', _ :: _ => take n l :: slices fuel' n (drop n l)
  | _, _ => []
  end.

(** The batches a chunked reader yields: slices of [chunksize]
    records in file order; the first read always yields a batch, an
    empty one when the file has no data record. *)
Definition batches {A} (chunksize : nat) (l : list A) : list (list A) :=
  match l with
  | [] => [[]]
  | _ => slices (length l) chunksize l
  end.

(** [pd.read_csv(path, chunksize=chunksize, dtype=str, ...)], the
    batches it yields when iterated. *)
Definition read_csv_str_chunks (fs : gmap string file) (path : string) (chunksize : nat)
  : result (list DataFrame) :=
  c ← open_csv fs path;
  if decide (chunksize = 0%nat) then Raise "'chunksize' must be an integer >=1"
  else Ok (frame_of_text (header c) <$> batches chunksize (records c)).

End Reader.

(** ** [safe_convert_value] *)

(** The branches in the order of the source: missing, numpy integer,
    numpy float, bool, and [str(value)] for what is left, which for a
    cell of a frame is a text.  The [np.ndarray] branch has no
    counterpart: no cell of a frame read from a CSV file is an array. *)

Definition safe_convert_value (v : value) : json :=
  if isna v then JNull
  else match v with
       | VInt n => JInt n
       | VFloat x => JFloat x
       | VBool b => JBool b
       | VStr s => JStr s
       end.

(** ** The quality analyzer: [analyze_csv_quality_chunked] *)

(** The ['unique_values'] entry: an [int], or the text ['1000+']. *)
Inductive unique_field :=
| UCount (n : Z)
| UText (s : string).

(** One entry of ['column_analysis']. *)
Record column_profile := {
  dtype_label : string;
  missing_count : Z;
  column_missing_percentage : Qc;
  unique_values : unique_field;
  samples : list json
}.

(** The dictionary [quality_report]. *)
Record quality_report := {
  total_rows : Z;
  total_columns : Z;
  total_cells : Z;
  missing_cells : Z;
  missing_percentage : Qc;
  column_analysis : gmap string column_profile;
  duplicate_rows : Z;
  memory_usage : Qc;
  is_large_file : bool
}.

(** The locals that the scanning loop updates. *)
Record scan := {
  rows_seen : Z;                              (* total_rows *)
  missing_counts : gmap string Z;
  unique_trackers : gmap string (list json);
  sample_values : gmap string (list json)
}.

Global Instance unique_field_eq_dec : EqDecision unique_field.
Proof. solve_decision. Defined.

Module Analyzer.

(** [dtypes[col] = str(first_chunk[col].dtype)], ['object'] when
    that raises. *)
Definition detect_dtypes (first_chunk : DataFrame) (cols : list string) : gmap string string :=
  foldl (λ d col,
           <[col := match Pd.getitem first_chunk col with
                    | Some s => dtype_name (s_dtype s)
                    | None => "object"
                    end]> d) ∅ cols.

(** [{col: x for col in columns}] *)
Definition dict_from_keys {V} (cols : list string) (x : V) : gmap string V :=
  foldl (λ d col, <[col := x]> d) ∅ cols.

(** [missing_counts[col] += int(chunk[col].isnull().sum())] under
    [try ... except: pass]. *)
Definition count_missing (chunk : DataFrame) (col : string) (mc : gmap string Z)
  : gmap string Z :=
  match mc !! col, Pd.getitem chunk col with
  | Some n, Some s => <[col := n + Pd.isnull_sum s]> mc
  | _, _ => mc
  end.

(** The loop [for val in unique_vals[:100]]. *)
Definition add_uniques (tracker : list json) (unique_vals : list value) : list json :=
  foldl (λ t val,
           let val_safe := safe_convert_value val in
           if bool_decide (val_safe ∈ t) then t else t ++ [val_safe])
        tracker (take 100 unique_vals).

(** The block guarded by [i < 3 and len(unique_trackers[col]) < 1000].
    [col] is a key of the dictionary, which is built from [columns]. *)
Definition track_uniques (i : nat) (chunk : DataFrame) (col : string)
    (ut : gmap string (list json)) : gmap string (list json) :=
  let tracker := ut !!! col in
  if (i <? 3)%nat && (length tracker <? 1000)%nat then
    match Pd.getitem chunk col with
    | Some s => <[col := add_uniques tracker (Pd.unique (Pd.dropna (s_values s)))]> ut
    | None => ut
    end
  else ut.

(** The loop [for val in samples]. *)
Definition add_samples (cur : list json) (vals : list value) : list json :=
  foldl (λ acc val,
           if (length acc <? 3)%nat then acc ++ [safe_convert_value val] else acc)
        cur vals.

(** The block guarded by [len(sample_values[col]) < 3]. *)
Definition collect_samples (chunk : DataFrame) (col : string)
    (sv : gmap string (list json)) : gmap string (list json) :=
  let cur := sv !!! col in
  if (length cur <? 3)%nat then
    match Pd.getitem chunk col with
    | Some s => <[col := add_samples cur (take 3 (Pd.dropna (s_values s)))]> sv
    | None => sv
    end
  else sv.

(** The body of [for col in columns] for batch number [i]. *)
Definition scan_column (i : nat) (chunk : DataFrame) (st : scan) (col : string) : scan :=
  {| rows_seen := rows_seen st;
     missing_counts := count_missing chunk col (missing_counts st);
     unique_trackers := track_uniques i chunk col (unique_trackers st);
     sample_values := collect_samples chunk col (sample_values st) |}.

(** The body of [for i, chunk in enumerate(chunk_iterator)]. *)
Definition scan_chunk (cols : list string) (i : nat) (chunk : DataFrame) (st : scan) : scan :=
  foldl (scan_column i chunk)
        {| rows_seen := rows_seen st + Pd.len chunk;
           missing_counts := missing_counts st;
           unique_trackers := unique_trackers st;
           sample_values := sample_values st |}
        cols.

Fixpoint scan_chunks (cols : list string) (i : nat) (chunks : list DataFrame) (st : scan)
  : scan :=
  match chunks with
  | [] => st
  | chunk :: rest => scan_chunks cols (S i) rest (scan_chunk cols i chunk st)
  end.

Definition scan_start (cols : list string) : scan :=
  {| rows_seen := 0;
     missing_counts := dict_from_keys cols 0;
     unique_trackers := dict_from_keys cols [];
     sample_values := dict_from_keys cols [] |}.

(** [sum(missing_counts.values())] *)
Definition sum_values (m : gmap string Z) : Z :=
  map_fold (λ _ v acc, v + acc) 0 m.

(** The duplicate check under [try ... except: duplicate_estimate =
    0]: the estimate from the sample when reading the sample returns,
    0 when it raises. *)
Definition estimate_duplicates (fs : gmap string file) (file_path : string)
    (sample_size total : Z) : Z :=
  match Reader.read_csv_str_python fs file_path (Z.min sample_size total) with
  | Ok sample_df =>
      Num.int (Num.of_Z (Pd.duplicated_sum sample_df)
               * (Num.of_Z total / Num.of_Z (Z.max (Pd.len sample_df) 1)))%Qc
  | Raise _ => 0
  end.

(** [part / whole * 100] rounded to two places, [0.0] when [whole]
    is not positive. *)
Definition percentage (part whole : Z) : Qc :=
  if decide (0 < whole) then Num.round2 (Num.of_Z part / Num.of_Z whole * Num.of_Z 100)%Qc
  else 0%Qc.

(** One pass of the last loop: the profile of [col], or the minimal
    one when a lookup raises. *)
Definition profile_column (dts : gmap string string) (st : scan) (col : string)
  : column_profile :=
  match unique_trackers st !! col, missing_counts st !! col, sample_values st !! col with
  | Some tracker, Some missing, Some vals =>
      let unique_count := Z.of_nat (length tracker) in
      {| dtype_label := default "object" (dts !! col);
         missing_count := missing;
         column_missing_percentage := percentage missing (rows_seen st);
         unique_values := if decide (unique_count < 1000) then UCount unique_count
                          else UText "1000+";
         samples := take 3 vals |}
  | _, _, _ =>
      {| dtype_label := "unknown";
         missing_count := 0;
         column_missing_percentage := 0%Qc;
         unique_values := UCount 0;
         samples := [] |}
  end.

Definition analyze_with (chunksize : nat) (fs : gmap string file) (file_path : string)
    (sample_size : Z) : result quality_report :=
  first_chunk ← Reader.read_csv_str fs file_path 1000;
  let cols := columns first_chunk in
  let dts := detect_dtypes first_chunk cols in
  chunk_iterator ← Reader.read_csv_str_chunks fs file_path chunksize;
  let st := scan_chunks cols 0 chunk_iterator (scan_start cols) in
  let total := rows_seen st in
  let n_columns := Z.of_nat (length cols) in
  let n_cells := total * n_columns in
  let total_missing := sum_values (missing_counts st) in
  let duplicate_estimate := estimate_duplicates fs file_path sample_size total in
  size ← Reader.getsize fs file_path;
  Ok {| total_rows := total;
        total_columns := n_columns;
        total_cells := n_cells;
        missing_cells := total_missing;
        missing_percentage := percentage total_missing n_cells;
        column_analysis :=
          foldl (λ ca col, <[col := profile_column dts st col]> ca) ∅ cols;
        duplicate_rows := duplicate_estimate;
        memory_usage := Num.round2 (Num.of_Z size / Num.of_Z 1024 / Num.of_Z 1024)%Qc;
        is_large_file := bool_decide (50000 < total) |}.

End Analyzer.

(** [analyze_csv_quality_chunked(file_path, sample_size)], with the
    batch size as a parameter: any exception of the body is raised
    again as [Exception("Error analyzing CSV: ...")]. *)
Definition analyze_csv_quality (chunksize : nat) (fs : gmap string file)
    (file_path : string) (sample_size : Z) : result quality_report :=
  match Analyzer.analyze_with chunksize fs file_path sample_size with
  | Ok quality_report => Ok quality_report
  | Raise e => Raise ("Error analyzing CSV: " ++ e)%string
  end.

Definition analyze_csv_quality_chunked : gmap string file → string → Z → result quality_report :=
  analyze_csv_quality CHUNK_SIZE.

(** A file with the three records of [a,b / 1,2 / 3, / 5,6]. *)
Definition demo_file : csv_file :=
  {| file_size := 16;
     header := ["a"; "b"];
     records := [[Some "1"; Some "2"]; [Some "3"; None]; [Some "5"; Some "6"]] |}.

(** ** The transform engine: [preprocess_csv_task_chunked] *)

(** The numeric and formatting routines of pandas that the engine
    calls and this development does not look into. *)
Class PandasKernels := {
  (** the dtype pandas infers for a column of text cells *)
  infer_dtype : list (option string) → dtype;
  (** the value of a non-missing text cell in a column of that dtype *)
  parse_cell : dtype → string → value;
  (** [str(v)] for a cell, as [astype(str)] and [to_csv] print it *)
  format_value : value → string;
  (** [s.mean()], [s.median()] and [s.mode()] *)
  mean : list value → value;
  median : list value → value;
  mode : list value → list value;
  (** [pd.to_numeric(s)]: the converted column and its dtype, [None]
      for a [ValueError] or [TypeError] *)
  to_numeric : list value → option (dtype * list value);
  (** the number of bytes of a written file *)
  csv_size : list string → list (list (option string)) → Z
}.

(** The [options] dictionary; a [bool] field is the truth value of
    [options.get(key)]. *)
Record options := {
  handle_missing : option string;
  trim_whitespace : bool;
  convert_types : bool;
  standardize_columns : bool;
  remove_duplicates : bool
}.

(** The dictionary that [preprocess_csv_task_chunked] returns; a key
    that a return statement does not set is [None]. *)
Record transform_result := {
  status : string;
  output_path : option string;
  rows_processed : option Z;
  rows_removed : option Z;
  result_columns : option (list string);
  error : option string
}.

(** One call [redis_conn.setex(name, time, value)]; the value is the
    JSON object with the single key [rows_processed]. *)
Record setex_call := {
  setex_name : string;
  setex_time : Z;
  setex_rows_processed : Z
}.

(** The state outside the process: the files, and the [setex] calls
    received by Redis, oldest first. *)
Record world := {
  files : gmap string file;
  redis : list setex_call
}.

(** A computation that reads and writes the world and may raise. *)
Definition Fx (A : Type) : Type := world → result A * world.

Global Instance Fx_ret : MRet Fx := λ A a w, (Ok a, w).
Global Instance Fx_bind : MBind Fx := λ A B f m w,
  match m w with
  | (Ok a, w') => f a w'
  | (Raise msg, w') => (Raise msg, w')
  end.

Definition lift {A} (r : gmap string file → result A) : Fx A := λ w, (r (files w), w).
Definition raise {A} (msg : string) : Fx A := λ w, (Raise msg, w).

(** The [mode] argument of [to_csv]: ['w'] or ['a']. *)
Inductive write_mode := mode_w | mode_a.

Section Transform.
Context `{PandasKernels}.

(** *** Reading with type inference *)

Definition typed_cell (d : dtype) (c : option string) : value :=
  match c with
  | None => NaN
  | Some s => parse_cell d s
  end.

(** The frame [pd.read_csv] builds from records when no dtype is
    given: the dtype of each column is inferred from the cells of the
    records read. *)
Definition frame_of_records (hdr : list string) (recs : list (list (option string)))
  : DataFrame :=
  let width := length hdr in
  let fitted := Reader.fit width <$> recs in
  let dts := (λ i, infer_dtype ((λ r, nth i r None) <$> fitted)) <$> seq 0 width in
  {| columns := hdr;
     dtypes := dts;
     rows := (λ r, zip_with typed_cell dts r) <$> fitted |}.

(** [pd.read_csv(path, nrows=nrows, low_memory=False)]; [nrows] is
    [None] when the argument is not given. *)
Definition read_csv (path : string) (nrows : option Z) : Fx DataFrame :=
  lift (λ fs,
    c ← Reader.open_csv fs path;
    recs ← match nrows with
           | Some n => Reader.head_records n (records c)
           | None => Ok (records c)
           end;
    Ok (frame_of_records (header c) recs)).

(** [pd.read_csv(path, chunksize=chunksize, low_memory=False)], the
    batches it yields; each batch is typed on its own.  The reader of
    pandas is lazy: it parses a batch when the loop asks for it.  Here
    the batches are those of the file as it is when the reader is
    opened.  The two agree when the file parses to its end ([Csv]) and
    is not written while the loop runs, that is when the output path
    is not the input path; the statements about the streaming loop
    assume it, and say nothing of a run that rewrites the file it
    reads. *)
Definition read_csv_chunks (path : string) (chunksize : nat) : Fx (list DataFrame) :=
  lift (λ fs,
    c ← Reader.open_csv fs path;
    if decide (chunksize = 0%nat) then Raise "'chunksize' must be an integer >=1"
    else Ok (frame_of_records (header c) <$> Reader.batches chunksize (records c))).

(** *** Writing *)

Definition csv_cell (v : value) : option string :=
  if isna v then None else Some (format_value v).

Definition csv_records (df : DataFrame) : list (list (option string)) :=
  (λ r : list value, csv_cell <$> r) <$> rows df.

Definition make_file (hdr : list string) (recs : list (list (option string))) : file :=
  Csv {| file_size := csv_size hdr recs; header := hdr; records := recs |}.

(** [df.to_csv(path, index=False, mode='w')] creates or truncates
    the file; [df.to_csv(path, index=False, mode='a', header=False)]
    adds the records of [df] to the end of it (the engine appends only
    to the file it has just created). *)
Definition written (df : DataFrame) (m : write_mode) (old : option file) : file :=
  match m, old with
  | mode_a, Some (Csv c) => make_file (header c) (records c ++ csv_records df)
  | mode_a, _ => make_file [] (csv_records df)
  | mode_w, _ => make_file (columns df) (csv_records df)
  end.

Definition to_csv (df : DataFrame) (path : string) (m : write_mode) : Fx () := λ w,
  (Ok (), {| files := <[path := written df m (files w !! path)]> (files w);
             redis := redis w |}).

(** [redis_conn.setex(name, time, json.dumps({'rows_processed': n}))] *)
Definition setex (name : string) (time n : Z) : Fx () := λ w,
  (Ok (), {| files := files w;
             redis := redis w ++ [{| setex_name := name; setex_time := time;
                                     setex_rows_processed := n |}] |}).

(** *** [apply_preprocessing_options] *)

Definition column_values (i : nat) (df : DataFrame) : list value :=
  (λ r, nth i r NaN) <$> rows df.

(** [df[col] = vals] for the column at position [i]. *)
Definition set_column (i : nat) (d : dtype) (vals : list value) (df : DataFrame) : DataFrame :=
  {| columns := columns df;
     dtypes := <[i := d]> (dtypes df);
     rows := imap (λ j r, <[i := nth j vals NaN]> r) (rows df) |}.

(** [s.fillna(x)] *)
Definition fillna (x : value) (vals : list value) : list value :=
  (λ v, if isna v then x else v) <$> vals.

Definition is_number (d : dtype) : bool :=
  match d with
  | int64 | float64 => true
  | _ => false
  end.

Definition column_dtype (i : nat) (df : DataFrame) : dtype := nth i (dtypes df) object_.

(** [for col in ...: df[col] = f(df[col])] over the columns that
    [sel] selects; the dtype of the column is kept.  The columns are
    visited by position, which is what pandas does by label when the
    labels are distinct.  With a repeated label [df[col]] is a frame,
    not a column, and the code can raise where this definition
    returns: the statements about the options assume distinct
    labels. *)
Definition update_columns (sel : dtype → bool) (f : list value → list value)
    (df : DataFrame) : DataFrame :=
  foldl (λ df i,
           if sel (column_dtype i df)
           then set_column i (column_dtype i df) (f (column_values i df)) df
           else df)
        df (seq 0 (length (columns df))).

Definition fill_with (stat : list value → value) (vals : list value) : list value :=
  fillna (stat vals) vals.

(** The body of the [fill_mode] loop for one column. *)
Definition fill_mode (vals : list value) : list value :=
  if existsb isna vals then
    match mode vals with
    | m :: _ => fillna m vals
    | [] => vals
    end
  else vals.

(** [df[col].astype(str).str.strip()] *)
Definition strip_values (vals : list value) : list value :=
  (λ v, VStr (PyStr.strip (match v with VStr s => s | _ => format_value v end))) <$> vals.

Definition is_object (d : dtype) : bool :=
  match d with
  | object_ => true
  | _ => false
  end.

(** The [convert_types] loop. *)
Definition convert_columns (df : DataFrame) : DataFrame :=
  foldl (λ df i,
           match to_numeric (column_values i df) with
           | Some (d, vals) => set_column i d vals df
           | None => df
           end)
        df (seq 0 (length (columns df))).

(** The chain [if options.get('handle_missing') == 'drop': ... elif ...]. *)
Definition handle_missing_values (df : DataFrame) (opts : options) : DataFrame :=
  if decide (handle_missing opts = Some "drop") then Pd.dropna_rows df
  else if decide (handle_missing opts = Some "fill_mean")
  then update_columns is_number (fill_with mean) df
  else if decide (handle_missing opts = Some "fill_median")
  then update_columns is_number (fill_with median) df
  else if decide (handle_missing opts = Some "fill_mode")
  then update_columns (λ _, true) fill_mode df
  else df.

Definition apply_preprocessing_options (df : DataFrame) (opts : options) : DataFrame :=
  let df := handle_missing_values df opts in
  let df := if trim_whitespace opts then update_columns is_object strip_values df else df in
  let df := if convert_types opts then convert_columns df else df in
  df.

(** *** [preprocess_csv_task_chunked] *)

(** [col.strip().lower().replace(' ', '_')] *)
Definition standardize (col : string) : string :=
  PyStr.replace " " "_" (PyStr.lower (PyStr.strip col)).

(** [chunk.columns = cols]; pandas refuses labels of another length. *)
Definition set_labels (cols : list string) (chunk : DataFrame) : Fx DataFrame :=
  if decide (length cols = length (columns chunk))
  then mret {| columns := cols; dtypes := dtypes chunk; rows := rows chunk |}
  else raise "Length mismatch".

(** The loop [for chunk_num, chunk in enumerate(chunk_iterator)];
    it returns [total_rows_processed]. *)
Fixpoint process_chunks (file_path out : string) (opts : options) (cols : list string)
    (chunks : list DataFrame) (is_first_chunk : bool) (total_rows_processed : Z) : Fx Z :=
  match chunks with
  | [] => mret total_rows_processed
  | chunk :: rest =>
      chunk ← (if standardize_columns opts then set_labels cols chunk else mret chunk);
      let chunk := apply_preprocessing_options chunk opts in
      _ ← to_csv chunk out (if is_first_chunk then mode_w else mode_a);
      let total_rows_processed := total_rows_processed + Pd.len chunk in
      _ ← setex ("progress:" ++ file_path)%string 300 total_rows_processed;
      process_chunks file_path out opts cols rest false total_rows_processed
  end.

(** The statements under [try]. *)
Definition preprocess_body (file_path : string) (opts : options) : Fx transform_result :=
  let out := PyStr.replace ".csv" "_processed.csv" file_path in
  first_chunk ← read_csv file_path (Some 100);
  let cols := columns first_chunk in
  let cols := if standardize_columns opts then standardize <$> cols else cols in
  if remove_duplicates opts then
    df ← read_csv file_path None;
    let original_rows := Pd.len df in
    let df := Pd.drop_duplicates df in
    let total_rows_processed := Pd.len df in
    let df := apply_preprocessing_options df opts in
    _ ← to_csv df out mode_w;
    mret {| status := "success";
            output_path := Some out;
            rows_processed := Some total_rows_processed;
            rows_removed := Some (original_rows - total_rows_processed);
            result_columns := Some (columns df);
            error := None |}
  else
    chunk_iterator ← read_csv_chunks file_path CHUNK_SIZE;
    total_rows_processed ← process_chunks file_path out opts cols chunk_iterator true 0;
    mret {| status := "success";
            output_path := Some out;
            rows_processed := Some total_rows_processed;
            rows_removed := None;
            result_columns := Some cols;
            error := None |}.

(** [preprocess_csv_task_chunked(file_path, options)]: the value it
    returns and the world it leaves. *)
Definition preprocess_csv_task_chunked (file_path : string) (opts : options) (w : world)
  : transform_result * world :=
  match preprocess_body file_path opts w with
  | (Ok r, w') => (r, w')
  | (Raise e, w') =>
      ({| status := "error";
          output_path := None;
          rows_processed := None;
          rows_removed := None;
          result_columns := None;
          error := Some e |}, w')
  end.

End Transform.

(** A pandas in which every column is an object column of text: the
    kernels used to run the engine on concrete files. *)
Definition text_kernels : PandasKernels :=
  {| infer_dtype := λ _, object_;
     parse_cell := λ _ s, VStr s;
     format_value := λ v, match v with VStr s => s | _ => "nan" end;
     mean := λ _, NaN;
     median := λ _, NaN;
     mode := λ vals, take 1 (Pd.dropna vals);
     to_numeric := λ _, None;
     csv_size := λ _ _, 0 |}.

Definition no_options : options :=
  {| handle_missing := None; trim_whitespace := false; convert_types := false;
     standardize_columns := false; remove_duplicates := false |}.

(** ** Upload names: [allowed_file] *)

Definition ALLOWED_EXTENSIONS : list string := ["csv"].

(** ['.' in s] *)
Fixpoint has_dot (s : string) : bool :=
  match s with
  | EmptyString => false
  | String c s' => Ascii.eqb c "." || has_dot s'
  end.

(** [s.rsplit('.', 1)[1]] for a text with a dot: what follows its
    last dot. *)
Fixpoint after_last_dot (s : string) : string :=
  match s with
  | EmptyString => EmptyString
  | String c s' => if has_dot s' then after_last_dot s' else s'
  end.

(** ['.' in filename and filename.rsplit('.', 1)[1].lower() in
    ALLOWED_EXTENSIONS] *)
Definition allowed_file (filename : string) : bool :=
  has_dot filename
  && bool_decide (PyStr.lower (after_last_dot filename) ∈ ALLOWED_EXTENSIONS).

(** ** Notions used to state the properties *)

(** Every column stays a key of the three dictionaries, and
    [missing_counts] gets no other key. *)
Definition keyed (cols : list string) (st : scan) : Prop :=
  ∀ k, (is_Some (missing_counts st !! k) ↔ k ∈ cols)
       ∧ (k ∈ cols → is_Some (unique_trackers st !! k))
       ∧ (k ∈ cols → is_Some (sample_values st !! k)).

(** The state of the scan after the last batch of the file [c]. *)
Definition scanned (n : nat) (c : csv_file) : scan :=
  Analyzer.scan_chunks (header c) 0
    (Reader.frame_of_text (header c) <$> Reader.batches n (records c))
    (Analyzer.scan_start (header c)).

(** A file system with the demonstration file only. *)
Definition demo_fs : gmap string file := {[ "uploads/demo.csv" := Csv demo_file ]}.

(** A file with the header [a,b] and nothing else. *)
Definition header_only_file : csv_file :=
  {| file_size := 4; header := ["a"; "b"]; records := [] |}.

(** A file with one column and 2000 records, the texts [0] to [1999]. *)
Definition wide_file : csv_file :=
  {| file_size := 8895;
     header := ["id"];
     records := (λ k : nat, [Some (pretty k)]) <$> seq 0 2000 |}.

Definition wide_fs : gmap string file := {[ "uploads/wide.csv" := Csv wide_file ]}.

(** The batch as the loop writes it: relabelled when
    [standardize_columns] is set, then passed through the per-cell
    options. *)
Definition relabelled (opts : options) (cols : list string) (chunk : DataFrame) : DataFrame :=
  if standardize_columns opts
  then {| columns := cols; dtypes := dtypes chunk; rows := rows chunk |}
  else chunk.

Definition processed `{PandasKernels} (opts : options) (cols : list string)
    (chunk : DataFrame) : DataFrame :=
  apply_preprocessing_options (relabelled opts cols chunk) opts.

(** The partial sums of [sizes], from [start]. *)
Fixpoint running_totals (start : Z) (sizes : list Z) : list Z :=
  match sizes with
  | [] => []
  | n :: rest => (start + n) :: running_totals (start + n) rest
  end.

Definition progress_entry (file_path : string) (n : Z) : setex_call :=
  {| setex_name := ("progress:" ++ file_path)%string;
     setex_time := 300;
     setex_rows_processed := n |}.

(** The files after the frames [dfs] were written to [out], the first
    one with mode ['w'] when [is_first] is set, the others appended. *)
Fixpoint stream_files `{PandasKernels} (out : string) (dfs : list DataFrame)
    (is_first : bool) (fs : gmap string file) : gmap string file :=
  match dfs with
  | [] => fs
  | df :: rest =>
      stream_files out rest false
        (<[out := written df (if is_first then mode_w else mode_a) (fs !! out)]> fs)
  end.

(** The labels the engine computes before it branches. *)
Definition labels (opts : options) (c : csv_file) : list string :=
  if standardize_columns opts then standardize <$> header c else header c.

(** The labels the engine computes are distinct, and they are computed
    from ASCII labels when they are standardized, so that they are the
    labels Python computes. *)
Definition usable_labels (opts : options) (c : csv_file) : Prop :=
  NoDup (labels opts c)
  ∧ (standardize_columns opts = true → forallb PyStr.is_ascii_text (header c) = true).

(** The batches of a file as the streaming loop receives them. *)
Definition chunks_of `{PandasKernels} (c : csv_file) : list DataFrame :=
  frame_of_records (header c) <$> Reader.batches CHUNK_SIZE (records c).

Definition output_of (file_path : string) : string :=
  PyStr.replace ".csv" "_processed.csv" file_path.

(** A file of five records; the third repeats the first, and one cell
    of the fourth is missing. *)
Definition people_file : csv_file :=
  {| file_size := 83;
     header := ["First Name"; "Last Name"];
     records := [[Some "Ada"; Some "Lovelace"];
                 [Some "Alan"; Some "Turing"];
                 [Some "Ada"; Some "Lovelace"];
                 [Some "Kurt"; None];
                 [Some "Emmy"; Some "Noether"]] |}.

Definition people_world : world :=
  {| files := {[ "uploads/people.csv" := Csv people_file ]}; redis := [] |}.

(** The duplicate estimate as the specification words it: the exact
    duplicates among the first [min(sample_size, total_rows)] rows,
    times [total_rows] over the number of rows of the sample, cut to
    an integer. *)
Definition specified_duplicate_estimate (c : csv_file) (sample_size : Z) : Z :=
  let total := Z.of_nat (length (records c)) in
  let sample_df :=
    Reader.frame_of_text (header c)
      (take (Z.to_nat (Z.min sample_size total)) (records c)) in
  Num.int (Num.of_Z (Pd.duplicated_sum sample_df)
           * (Num.of_Z total / Num.of_Z (Z.max (Pd.len sample_df) 1)))%Qc.

(** The claim C9 read on the rows of the batches: the values sent
    after the batches are the running totals of the numbers of rows of
    the batches read. *)
Definition progress_counts_rows_read `{PandasKernels} (path : string) (opts : options)
    (w : world) : Prop :=
  ∀ c, files w !! path = Some (Csv c) → remove_duplicates opts = false →
       redis (snd (preprocess_csv_task_chunked path opts w))
       = redis w
         ++ (progress_entry path
               <$> running_totals 0 ((λ b, Z.of_nat (length b))
                                       <$> Reader.batches CHUNK_SIZE (records c))).

(** The cells at position [i] of the records, each record at the
    width [width]. *)
Definition cells_at (width i : nat) (recs : list (list (option string)))
  : list (option string) :=
  (λ r, nth i (Reader.fit width r) None) <$> recs.

(** The cells of the column at position [i] of a file, top to bottom. *)
Definition file_column (c : csv_file) (i : nat) : list (option string) :=
  cells_at (length (header c)) i (records c).

(** The records of a file as the reader delivers them. *)
Definition table (c : csv_file) : list (list (option string)) :=
  Reader.fit (length (header c)) <$> records c.

(** The number of missing cells in a list of cells. *)
Definition missing_in (cells : list (option string)) : Z :=
  Z.of_nat (length (filter (λ x, x = None) cells)).

(** The texts of [l] that are not in [seen], each once, in order of
    first appearance. *)
Fixpoint first_appearances (seen l : list string) : list string :=
  match l with
  | [] => []
  | x :: l' =>
      if bool_decide (x ∈ seen) then first_appearances seen l'
      else x :: first_appearances (x :: seen) l'
  end.

(** A frame as pandas builds it from a file: distinct labels, one
    dtype per label and rows as wide as the labels. *)
Definition well_formed (df : DataFrame) : Prop :=
  NoDup (columns df)
  ∧ length (dtypes df) = length (columns df)
  ∧ Forall (λ r, length r = length (columns df)) (rows df).

(** A row without a missing cell. *)
Definition complete (r : list value) : Prop := forallb (λ v, negb (isna v)) r = true.

(** The text is empty or starts with a character that is not white
    space. *)
Definition starts_tight (s : string) : Prop :=
  match s with
  | EmptyString => True
  | String c _ => PyStr.is_space c = false
  end.

(** An ASCII capital letter. *)
Definition is_upper (c : ascii) : bool :=
  let n := nat_of_ascii c in (65 <=? n)%nat && (n <=? 90)%nat.

(** A text, character by character. *)
Fixpoint map_chars (f : ascii → ascii) (s : string) : string :=
  match s with
  | EmptyString => EmptyString
  | String c s' => String (f c) (map_chars f s')
  end.

(** What [standardize] does to a character that [strip] keeps. *)
Definition standard_char (c : ascii) : ascii :=
  let l := PyStr.lower_char c in if Ascii.eqb l " " then "_"%char else l.


(** A frame with an object column and a numeric column; one text has
    white space around it and one cell is missing. *)
Definition padded_frame : DataFrame :=
  {| columns := ["name"; "age"];
     dtypes := [object_; int64];
     rows := [[VStr "  Ada "; VInt 36]; [NaN; VInt 41]] |}.

Definition only_trim : options :=
  {| handle_missing := None; trim_whitespace := true; convert_types := false;
     standardize_columns := false; remove_duplicates := false |}.

Definition only_handle_missing (how : string) : options :=
  {| handle_missing := Some how; trim_whitespace := false; convert_types := false;
     standardize_columns := false; remove_duplicates := false |}.

Definition only_remove_duplicates : options :=
  {| handle_missing := None; trim_whitespace := false; convert_types := false;
     standardize_columns := false; remove_duplicates := true |}.

(** The texts of a batch that the tracker of the column at position
    [i] is offered: the first 100 distinct texts of the batch. *)
Definition offered (width i : nat) (b : list (list (option string))) : list string :=
  take 100 (first_appearances [] (omap id (cells_at width i b))).

(** The texts offered to the tracker over the whole scan: those of
    the first three batches. *)
Definition tracked_texts (n : nat) (c : csv_file) (i : nat) : list string :=
  concat (offered (length (header c)) i <$> take 3 (Reader.batches n (records c))).

(** Every text of the file is printed as it was read: a text cell,
    parsed at the dtype pandas infers for its column in its batch, is
    not missing and is formatted as the text it was.  (A column of
    texts such as [1] and [2] meets it; a column of [1] and [2.0], or
    an integer column with a missing cell, does not: pandas prints
    [1.0].) *)
Definition prints_as_read `{PandasKernels} (c : csv_file) : Prop :=
  ∀ b i s,
    b ∈ Reader.batches CHUNK_SIZE (records c) →
    (i < length (header c))%nat →
    Some s ∈ cells_at (length (header c)) i b →
    let d := infer_dtype (cells_at (length (header c)) i b) in
    isna (parse_cell d s) = false ∧ format_value (parse_cell d s) = s.

(** No option that touches cells, labels or rows. *)
Definition plain (opts : options) : Prop :=
  handle_missing opts = None ∧ trim_whitespace opts = false
  ∧ convert_types opts = false ∧ standardize_columns opts = false
  ∧ remove_duplicates opts = false.

(** * Properties *)

(** ** Lists and dictionaries *)

Section Dict.
Context {V : Type}.

Lemma lookup_foldl_insert (f : string → V) (cols : list string) (m : gmap string V) k :
  foldl (λ d col, <[col := f col]> d) m cols !! k
  = if decide (k ∈ cols) then Some (f k) else m !! k.
Proof.
  revert m. induction cols as [|c cols IH]; intros m; simpl.
  - done.
  - rewrite IH. destruct (decide (k ∈ cols)) as [Hin|Hnin].
    + rewrite decide_True; [done | by right].
    + destruct (decide (k = c)) as [->|Hne].
      * rewrite lookup_insert_eq. rewrite decide_True; [done | by left].
      * rewrite lookup_insert_ne by done.
        rewrite decide_False; [done |]. by intros [?|?]%elem_of_cons.
Qed.

Lemma lookup_dict_from_keys (cols : list string) (x : V) k :
  Analyzer.dict_from_keys cols x !! k = if decide (k ∈ cols) then Some x else None.
Proof. unfold Analyzer.dict_from_keys. by rewrite (lookup_foldl_insert (λ _, x)). Qed.

End Dict.

(** The sum of the values of a dictionary does not depend on how the
    entries are listed. *)
Lemma sum_values_insert (m : gmap string Z) k v :
  m !! k = None → Analyzer.sum_values (<[k := v]> m) = v + Analyzer.sum_values m.
Proof.
  intros Hk. unfold Analyzer.sum_values.
  rewrite map_fold_insert_L; [done | intros; lia | done].
Qed.

Lemma sum_values_empty : Analyzer.sum_values ∅ = 0.
Proof. unfold Analyzer.sum_values. by rewrite map_fold_empty. Qed.

(** For labels without repetition, the sum of the values is the sum of
    the lookups along the labels. *)
Lemma sum_values_along (cols : list string) (m : gmap string Z) :
  NoDup cols → (∀ k, is_Some (m !! k) ↔ k ∈ cols) →
  Analyzer.sum_values m = foldr Z.add 0 ((λ c, default 0 (m !! c)) <$> cols).
Proof.
  intros Hnd. revert m. induction Hnd as [|c cols Hc Hnd IH]; intros m Hdom.
  - assert (m = ∅) as ->.
    { apply map_empty. intros k. apply eq_None_not_Some. rewrite Hdom. apply not_elem_of_nil. }
    apply sum_values_empty.
  - destruct (proj2 (Hdom c)) as [v Hv]; [by left |].
    rewrite <- (insert_delete_id m c v Hv).
    rewrite sum_values_insert by apply lookup_delete_eq.
    simpl. rewrite lookup_insert_eq. simpl. f_equal.
    rewrite (IH (delete c m)).
    + apply (f_equal (foldr Z.add 0)). apply list_fmap_ext.
      intros i k Hk. rewrite lookup_insert_ne; [done |].
      intros <-. apply Hc. by eapply list_elem_of_lookup_2.
    + intros k. rewrite lookup_delete_is_Some, Hdom. split.
      * intros [Hne [<-|Hin]%elem_of_cons]; [done | done].
      * intros Hin. split; [intros <-; done | by right].
Qed.

(** ** The scan of the analyzer *)

Section Scan.
Import Analyzer.

(** An invariant of the loop body is an invariant of the loops. *)
Lemma scan_chunk_invariant (P : scan → Prop) cols i chunk st :
  (∀ st n, P st → P {| rows_seen := n; missing_counts := missing_counts st;
                       unique_trackers := unique_trackers st;
                       sample_values := sample_values st |}) →
  (∀ st col, P st → P (scan_column i chunk st col)) →
  P st → P (scan_chunk cols i chunk st).
Proof.
  intros Hrows Hcol Hst. unfold scan_chunk.
  generalize (Hrows st (rows_seen st + Pd.len chunk) Hst).
  generalize ({| rows_seen := rows_seen st + Pd.len chunk;
                 missing_counts := missing_counts st;
                 unique_trackers := unique_trackers st;
                 sample_values := sample_values st |}).
  induction cols as [|c cols IH]; intros s Hs; simpl; [done |].
  apply IH. by apply Hcol.
Qed.

Lemma scan_chunks_invariant (P : scan → Prop) cols i chunks st :
  (∀ st n, P st → P {| rows_seen := n; missing_counts := missing_counts st;
                       unique_trackers := unique_trackers st;
                       sample_values := sample_values st |}) →
  (∀ i chunk st col, P st → P (scan_column i chunk st col)) →
  P st → P (scan_chunks cols i chunks st).
Proof.
  intros Hrows Hcol. revert i st.
  induction chunks as [|chunk rest IH]; intros i st Hst; simpl; [done |].
  apply IH. apply scan_chunk_invariant; auto.
Qed.

(** *** The row counter *)

Lemma scan_chunk_rows_seen cols i chunk st :
  rows_seen (scan_chunk cols i chunk st) = rows_seen st + Pd.len chunk.
Proof.
  unfold scan_chunk.
  change (rows_seen st + Pd.len chunk)
    with (rows_seen {| rows_seen := rows_seen st + Pd.len chunk;
                       missing_counts := missing_counts st;
                       unique_trackers := unique_trackers st;
                       sample_values := sample_values st |}) at 2.
  generalize ({| rows_seen := rows_seen st + Pd.len chunk;
                 missing_counts := missing_counts st;
                 unique_trackers := unique_trackers st;
                 sample_values := sample_values st |}).
  induction cols as [|c cols IH]; intros s; simpl; [done |].
  by rewrite IH.
Qed.

Lemma scan_chunks_rows_seen cols i chunks st :
  rows_seen (scan_chunks cols i chunks st)
  = rows_seen st + foldr Z.add 0 (Pd.len <$> chunks).
Proof.
  revert i st. induction chunks as [|chunk rest IH]; intros i st.
  - simpl. lia.
  - rewrite fmap_cons. cbn [scan_chunks foldr].
    rewrite IH, scan_chunk_rows_seen. lia.
Qed.

(** *** The keys of the three dictionaries *)

Lemma count_missing_keys chunk col mc k :
  is_Some (count_missing chunk col mc !! k) ↔ is_Some (mc !! k).
Proof.
  unfold count_missing.
  destruct (mc !! col) as [n|] eqn:Hn; [| done].
  destruct (Pd.getitem chunk col) as [s|]; [| done].
  destruct (decide (k = col)) as [->|Hne].
  - rewrite lookup_insert_eq, Hn. split; eauto.
  - by rewrite lookup_insert_ne.
Qed.

Lemma track_uniques_keys i chunk col ut k :
  is_Some (ut !! k) → is_Some (track_uniques i chunk col ut !! k).
Proof.
  intros Hk. unfold track_uniques.
  destruct (_ && _); [| done].
  destruct (Pd.getitem chunk col); [| done].
  destruct (decide (k = col)) as [->|Hne].
  - rewrite lookup_insert_eq. eauto.
  - by rewrite lookup_insert_ne.
Qed.

Lemma collect_samples_keys chunk col sv k :
  is_Some (sv !! k) → is_Some (collect_samples chunk col sv !! k).
Proof.
  intros Hk. unfold collect_samples.
  destruct (_ <? _)%nat; [| done].
  destruct (Pd.getitem chunk col); [| done].
  destruct (decide (k = col)) as [->|Hne].
  - rewrite lookup_insert_eq. eauto.
  - by rewrite lookup_insert_ne.
Qed.

Lemma scan_start_keyed cols : keyed cols (scan_start cols).
Proof.
  intros k. unfold scan_start; simpl. rewrite !lookup_dict_from_keys.
  destruct (decide (k ∈ cols)) as [Hin|Hnin].
  - repeat split; eauto.
  - split; [split; [intros [? ?]; done | done] | split; done].
Qed.

Lemma scan_chunks_keyed cols i chunks st :
  keyed cols st → keyed cols (scan_chunks cols i chunks st).
Proof.
  apply scan_chunks_invariant.
  - intros s n Hs k. apply (Hs k).
  - intros j chunk s col Hs k. destruct (Hs k) as (Hm & Hu & Hv). simpl.
    rewrite count_missing_keys. repeat split; try apply Hm.
    + intros Hin. by apply track_uniques_keys, Hu.
    + intros Hin. by apply collect_samples_keys, Hv.
Qed.

End Scan.

(** ** The chunked reader *)

Section Batches.
Context {T : Type}.
Implicit Types l : list T.

Lemma slices_concat fuel n l :
  (0 < n)%nat → (length l ≤ fuel)%nat → concat (Reader.slices fuel n l) = l.
Proof.
  intros Hn. revert l. induction fuel as [|fuel IH]; intros l Hl.
  - destruct l; [done | simpl in Hl; lia].
  - destruct l as [|x l]; [done |].
    cbn [Reader.slices concat]. rewrite IH.
    + apply take_drop.
    + rewrite length_drop. simpl in *. lia.
Qed.

Lemma slices_bounded fuel n l : Forall (λ b, (length b ≤ n)%nat) (Reader.slices fuel n l).
Proof.
  revert l. induction fuel as [|fuel IH]; intros l; [constructor |].
  destruct l as [|x l]; [constructor |].
  cbn [Reader.slices]. constructor; [| apply IH].
  rewrite length_take. lia.
Qed.

(** The batches, put end to end, are the records of the file. *)
Lemma batches_concat n l : (0 < n)%nat → concat (Reader.batches n l) = l.
Proof.
  intros Hn. unfold Reader.batches. destruct l as [|x l]; [done |].
  by apply slices_concat.
Qed.

(** No batch has more than [n] records. *)
Lemma batches_bounded n l : Forall (λ b, (length b ≤ n)%nat) (Reader.batches n l).
Proof.
  unfold Reader.batches. destruct l as [|x l].
  - repeat constructor. simpl. lia.
  - apply slices_bounded.
Qed.

Lemma length_concat_sum (ls : list (list T)) :
  Z.of_nat (length (concat ls)) = foldr Z.add 0 ((λ b, Z.of_nat (length b)) <$> ls).
Proof.
  induction ls as [|b ls IH]; [done |].
  rewrite fmap_cons. cbn [concat foldr]. rewrite length_app. lia.
Qed.

End Batches.

Lemma len_frame_of_text hdr recs :
  Pd.len (Reader.frame_of_text hdr recs) = Z.of_nat (length recs).
Proof. unfold Pd.len, Reader.frame_of_text. simpl. by rewrite length_fmap. Qed.

Lemma len_text_batches hdr n recs :
  (0 < n)%nat →
  foldr Z.add 0 (Pd.len <$> (Reader.frame_of_text hdr <$> Reader.batches n recs))
  = Z.of_nat (length recs).
Proof.
  intros Hn. rewrite <- list_fmap_compose.
  rewrite <- (batches_concat n recs Hn) at 2. rewrite length_concat_sum.
  f_equal. apply list_fmap_ext. intros i b _. apply len_frame_of_text.
Qed.

(** ** The report of the analyzer *)

(** The analysis returns exactly when the path holds a CSV file, and
    then the report is assembled from the scan. *)
Lemma analyze_csv_quality_Ok n fs path sample r :
  analyze_csv_quality n fs path sample = Ok r ↔
  ∃ c, fs !! path = Some (Csv c) ∧ n ≠ 0%nat ∧
    let st := scanned n c in
    let first_chunk := Reader.frame_of_text (header c) (take (Z.to_nat 1000) (records c)) in
    r = {| total_rows := rows_seen st;
           total_columns := Z.of_nat (length (header c));
           total_cells := rows_seen st * Z.of_nat (length (header c));
           missing_cells := Analyzer.sum_values (missing_counts st);
           missing_percentage :=
             Analyzer.percentage (Analyzer.sum_values (missing_counts st))
                                 (rows_seen st * Z.of_nat (length (header c)));
           column_analysis :=
             foldl (λ ca col,
                      <[col := Analyzer.profile_column
                                 (Analyzer.detect_dtypes first_chunk (header c)) st col]> ca)
                   ∅ (header c);
           duplicate_rows := Analyzer.estimate_duplicates fs path sample (rows_seen st);
           memory_usage :=
             Num.round2 (Num.of_Z (file_size c) / Num.of_Z 1024 / Num.of_Z 1024)%Qc;
           is_large_file := bool_decide (50000 < rows_seen st) |}.
Proof.
  unfold analyze_csv_quality, Analyzer.analyze_with, Reader.read_csv_str,
    Reader.read_csv_str_chunks, Reader.getsize, Reader.open_csv, scanned.
  split.
  - destruct (fs !! path) as [[err|c]|] eqn:Hf; simpl; try discriminate.
    destruct (decide (n = 0%nat)) as [->|Hn]; simpl; [discriminate |].
    intros [= <-]. exists c. done.
  - intros (c & -> & Hn & ->). simpl.
    by destruct (decide (n = 0%nat)).
Qed.

(** The scenario of the specification: the file [a,b / 1,2 / 3, / 5,6]
    has three rows and one missing cell, in column [b]. *)
Example analysis_scenario :
  ∃ r p, analyze_csv_quality_chunked demo_fs "uploads/demo.csv" 10000 = Ok r
         ∧ total_rows r = 3 ∧ total_cells r = 6 ∧ missing_cells r = 1
         ∧ column_analysis r !! "b" = Some p ∧ missing_count p = 1
         ∧ unique_values p = UCount 2 ∧ samples p = [JStr "2"; JStr "6"].
Proof.
  eexists. eexists. split; [vm_compute; reflexivity |].
  cbn [total_rows total_cells missing_cells column_analysis].
  split_and!; [reflexivity.. | vm_compute; reflexivity | | |]; reflexivity.
Qed.

(** C2: for every parseable file, whatever the positive batch size,
    the analysis returns a report whose [total_rows] is the number of
    data records of the file; hence two batch sizes (1 and 100000, or
    any others) give the same [total_rows]. *)
Theorem total_rows_exact n fs path sample c :
  (0 < n)%nat → fs !! path = Some (Csv c) →
  ∃ r, analyze_csv_quality n fs path sample = Ok r
       ∧ total_rows r = Z.of_nat (length (records c))
       ∧ ∀ m, (0 < m)%nat →
              ∃ r', analyze_csv_quality m fs path sample = Ok r'
                    ∧ total_rows r' = total_rows r.
Proof.
  intros Hn Hf.
  assert (Hrows : ∀ k, (0 < k)%nat → rows_seen (scanned k c) = Z.of_nat (length (records c))).
  { intros k Hk. unfold scanned.
    rewrite scan_chunks_rows_seen, len_text_batches by done. simpl. lia. }
  eexists. split; [| split].
  - apply analyze_csv_quality_Ok. exists c. split; [done |]. split; [lia | reflexivity].
  - simpl. by apply Hrows.
  - intros m Hm. eexists. split.
    + apply analyze_csv_quality_Ok. exists c. split; [done |]. split; [lia | reflexivity].
    + simpl. by rewrite !Hrows.
Qed.

Lemma total_rows_exact_witness :
  (0 < 1)%nat ∧ demo_fs !! "uploads/demo.csv" = Some (Csv demo_file) ∧
  ∃ r, analyze_csv_quality 1 demo_fs "uploads/demo.csv" 10000 = Ok r
       ∧ total_rows r = Z.of_nat (length (records demo_file))
       ∧ ∀ m, (0 < m)%nat →
              ∃ r', analyze_csv_quality m demo_fs "uploads/demo.csv" 10000 = Ok r'
                    ∧ total_rows r' = total_rows r.
Proof.
  split; [lia |]. split; [reflexivity |].
  apply (total_rows_exact 1 demo_fs "uploads/demo.csv" 10000 demo_file); [lia | reflexivity].
Defined.

Lemma scanned_keyed n c : keyed (header c) (scanned n c).
Proof. apply scan_chunks_keyed, scan_start_keyed. Qed.

(** The entries of [column_analysis]: one per column, built from the
    dictionaries of the scan. *)
Lemma column_analysis_lookup n fs path sample r col :
  analyze_csv_quality n fs path sample = Ok r →
  ∃ c, fs !! path = Some (Csv c) ∧
    (((col ∉ header c) ∧ column_analysis r !! col = None) ∨
     (col ∈ header c ∧ ∃ tracker missing vals,
        unique_trackers (scanned n c) !! col = Some tracker
        ∧ missing_counts (scanned n c) !! col = Some missing
        ∧ sample_values (scanned n c) !! col = Some vals
        ∧ column_analysis r !! col =
            Some (Analyzer.profile_column
                    (Analyzer.detect_dtypes
                       (Reader.frame_of_text (header c) (take (Z.to_nat 1000) (records c)))
                       (header c))
                    (scanned n c) col))).
Proof.
  intros (c & Hf & Hn & ->)%analyze_csv_quality_Ok. exists c. split; [done |].
  cbn [column_analysis].
  rewrite (lookup_foldl_insert (Analyzer.profile_column _ (scanned n c))).
  destruct (decide (col ∈ header c)) as [Hin|Hnin]; [right | left; done].
  split; [done |].
  destruct (scanned_keyed n c col) as (Hm & Hu & Hv).
  destruct (proj2 Hm Hin) as [missing Hmissing].
  destruct (Hu Hin) as [tracker Htracker].
  destruct (Hv Hin) as [vals Hvals].
  exists tracker, missing, vals. done.
Qed.

(** C3: in every report that the analysis returns, the
    [missing_count] entries of [column_analysis] add up to
    [missing_cells]; when the column labels are distinct, as pandas
    makes them, this is the sum of [column_analysis[c].missing_count]
    for [c] in the list of columns. *)
Theorem missing_counts_add_up n fs path sample r :
  analyze_csv_quality n fs path sample = Ok r →
  Analyzer.sum_values (missing_count <$> column_analysis r) = missing_cells r
  ∧ ∀ c, fs !! path = Some (Csv c) → NoDup (header c) →
         foldr Z.add 0 ((λ col, default 0 (missing_count <$> column_analysis r !! col))
                          <$> header c)
         = missing_cells r.
Proof.
  intros Hr.
  assert (∃ c, fs !! path = Some (Csv c)
               ∧ missing_count <$> column_analysis r = missing_counts (scanned n c)
               ∧ missing_cells r = Analyzer.sum_values (missing_counts (scanned n c))
               ∧ ∀ k, is_Some (missing_counts (scanned n c) !! k) ↔ k ∈ header c)
    as (c & Hf & Hmap & Hcells & Hkeys).
  { pose proof Hr as (c & Hf & Hn & Hreport)%analyze_csv_quality_Ok.
    exists c. split; [done |]. split; [| split].
    - apply map_eq. intros k. rewrite lookup_fmap.
      destruct (column_analysis_lookup n fs path sample r k Hr) as (c' & Hf' & Hk).
      assert (c' = c) as -> by congruence.
      destruct Hk as [[Hnin ->]|(Hin & tracker & missing & vals & Hu & Hm & Hv & ->)].
      + simpl. symmetry. apply eq_None_not_Some.
        intros Hs. apply Hnin.
        by apply (scanned_keyed n c k).
      + simpl. unfold Analyzer.profile_column. by rewrite Hu, Hm, Hv.
    - by rewrite Hreport.
    - intros k. apply (scanned_keyed n c k). }
  split.
  - by rewrite Hmap, Hcells.
  - intros c' Hf' Hnd. assert (c' = c) as -> by congruence.
    rewrite Hcells, (sum_values_along (header c)) by done.
    f_equal. apply list_fmap_ext. intros i col _.
    by rewrite <- Hmap, lookup_fmap.
Qed.

Lemma missing_counts_add_up_witness :
  ∃ r, analyze_csv_quality_chunked demo_fs "uploads/demo.csv" 10000 = Ok r
       ∧ Analyzer.sum_values (missing_count <$> column_analysis r) = missing_cells r
       ∧ ∀ c, demo_fs !! "uploads/demo.csv" = Some (Csv c) → NoDup (header c) →
              foldr Z.add 0 ((λ col, default 0 (missing_count <$> column_analysis r !! col))
                               <$> header c)
              = missing_cells r.
Proof.
  eexists. split; [vm_compute; reflexivity |].
  apply (missing_counts_add_up CHUNK_SIZE demo_fs "uploads/demo.csv" 10000).
  vm_compute. reflexivity.
Defined.

Lemma nth_replicate_same {T} (x : T) n i : nth i (replicate n x) x = x.
Proof. revert i. induction n as [|n IH]; intros [|i]; simpl; auto. Qed.

(** Every column of a frame read with [dtype=str] has dtype object. *)
Lemma getitem_text_dtype hdr recs col s :
  Pd.getitem (Reader.frame_of_text hdr recs) col = Some s → s_dtype s = object_.
Proof.
  unfold Pd.getitem. cbn [columns dtypes rows Reader.frame_of_text].
  destruct (Pd.index_of col hdr) as [i|]; simpl; [| discriminate].
  intros [= <-]. simpl. apply nth_replicate_same.
Qed.

(** C10: in every report that the analysis returns, the dtype label
    of every column is the text ['object']: the probe reads the cells
    with [dtype=str], so the label says nothing about the column. *)
Theorem dtype_label_object n fs path sample r col p :
  analyze_csv_quality n fs path sample = Ok r →
  column_analysis r !! col = Some p →
  dtype_label p = "object".
Proof.
  intros Hr Hp.
  destruct (column_analysis_lookup n fs path sample r col Hr) as (c & Hf & Hk).
  destruct Hk as [[_ Hnone]|(Hin & tracker & missing & vals & Hu & Hm & Hv & Hsome)];
    [congruence |].
  rewrite Hsome in Hp. injection Hp as <-.
  unfold Analyzer.profile_column. rewrite Hu, Hm, Hv. cbn [dtype_label].
  unfold Analyzer.detect_dtypes.
  rewrite (lookup_foldl_insert
             (λ col, match Pd.getitem _ col with
                     | Some s => dtype_name (s_dtype s)
                     | None => "object"
                     end)).
  rewrite decide_True by done. cbn [default].
  destruct (Pd.getitem _ col) as [s|] eqn:Hs; [| done].
  by rewrite (getitem_text_dtype _ _ _ _ Hs).
Qed.

Lemma dtype_label_object_witness :
  ∃ r p, analyze_csv_quality_chunked demo_fs "uploads/demo.csv" 10000 = Ok r
         ∧ column_analysis r !! "a" = Some p
         ∧ dtype_label p = "object".
Proof.
  eexists. eexists. split; [vm_compute; reflexivity |].
  split; [vm_compute; reflexivity |].
  eapply (dtype_label_object CHUNK_SIZE demo_fs "uploads/demo.csv" 10000 _ "a");
    vm_compute; reflexivity.
Defined.

(** ** The duplicate estimate *)

Section Estimate.

Lemma length_duplicated_acc seen rs :
  length (Pd.duplicated_acc seen rs) = length rs.
Proof.
  revert seen. induction rs as [|r rs IH]; intros seen; simpl; [done |].
  destruct (existsb _ seen); simpl; by rewrite IH.
Qed.

(** The marked rows and the kept rows are all the rows. *)
Lemma duplicated_acc_drop seen rs :
  (length (filter (λ b, b = true) (Pd.duplicated_acc seen rs))
   + length (Pd.drop_duplicates_acc seen rs) = length rs)%nat.
Proof.
  revert seen. induction rs as [|r rs IH]; intros seen; simpl; [done |].
  destruct (existsb _ seen).
  - rewrite filter_cons_True by done. simpl. by rewrite IH.
  - rewrite filter_cons_False by done. simpl. rewrite <- (IH (r :: seen)). lia.
Qed.

(** The number of marked rows is what [drop_duplicates] removes. *)
Lemma duplicated_sum_removed df :
  Pd.duplicated_sum df = Pd.len df - Pd.len (Pd.drop_duplicates df).
Proof.
  unfold Pd.duplicated_sum, Pd.duplicated, Pd.len, Pd.drop_duplicates. simpl.
  pose proof (duplicated_acc_drop [] (rows df)). lia.
Qed.

Lemma duplicated_sum_bounds df : 0 ≤ Pd.duplicated_sum df ≤ Pd.len df.
Proof.
  rewrite duplicated_sum_removed. unfold Pd.len, Pd.drop_duplicates. simpl.
  pose proof (duplicated_acc_drop [] (rows df)). lia.
Qed.

(** Reading the sample raises, so the estimate is the 0 of the
    handler. *)
Lemma estimate_duplicates_zero fs path sample total :
  Analyzer.estimate_duplicates fs path sample total = 0.
Proof. reflexivity. Qed.

End Estimate.

Lemma total_rows_scanned n c :
  n ≠ 0%nat → rows_seen (scanned n c) = Z.of_nat (length (records c)).
Proof.
  intros Hn. unfold scanned.
  rewrite scan_chunks_rows_seen, len_text_batches by lia. simpl. lia.
Qed.

(** C7: the duplicate estimate is never computed.  The sample is
    read with [engine="python"] and [low_memory=False], which pandas
    refuses: the read raises on every call, the handler sets the
    estimate to 0, and every report has [duplicate_rows = 0], whatever
    the file and the sample size.  For the file of five records of
    which one repeats an earlier one, the estimate that the claim
    describes is 1 and the report says 0. *)
Theorem duplicate_estimate_never_computed :
  (∀ n fs path sample r,
     analyze_csv_quality n fs path sample = Ok r → duplicate_rows r = 0)
  ∧ ∃ r, analyze_csv_quality_chunked (files people_world) "uploads/people.csv" 10000 = Ok r
         ∧ total_rows r = 5
         ∧ duplicate_rows r = 0
         ∧ specified_duplicate_estimate people_file 10000 = 1.
Proof.
  split.
  - intros n fs path sample r (c & Hf & Hn & ->)%analyze_csv_quality_Ok.
    cbn [duplicate_rows]. apply estimate_duplicates_zero.
  - eexists. split; [vm_compute; reflexivity |].
    split_and!; vm_compute; reflexivity.
Qed.

(** ** A file without data records *)

Lemma sum_values_zero (m : gmap string Z) :
  (∀ k v, m !! k = Some v → v = 0) → Analyzer.sum_values m = 0.
Proof.
  induction m as [|k v m Hk IH] using map_ind; intros Hz.
  - apply sum_values_empty.
  - rewrite sum_values_insert by done.
    rewrite (Hz k v) by apply lookup_insert_eq.
    rewrite IH; [done |]. intros k' v' Hk'. apply (Hz k').
    rewrite lookup_insert_ne; [done |]. intros ->. congruence.
Qed.

(** Scanning a batch without rows leaves every missing count at 0. *)
Lemma scan_empty_chunk_zero cols i hdr st :
  (∀ k v, missing_counts st !! k = Some v → v = 0) →
  ∀ k v, missing_counts (Analyzer.scan_chunk cols i (Reader.frame_of_text hdr []) st) !! k
         = Some v → v = 0.
Proof.
  apply (scan_chunk_invariant (λ st, ∀ k v, missing_counts st !! k = Some v → v = 0)).
  - intros s m Hs. apply Hs.
  - intros s col Hs k v. cbn [Analyzer.scan_column missing_counts].
    unfold Analyzer.count_missing.
    destruct (missing_counts s !! col) as [m|] eqn:Hm; [| apply Hs].
    destruct (Pd.getitem _ col) as [ser|] eqn:Hser; [| apply Hs].
    assert (Pd.isnull_sum ser = 0) as ->.
    { unfold Pd.getitem in Hser. cbn [columns dtypes rows Reader.frame_of_text] in Hser.
      destruct (Pd.index_of col hdr); simpl in Hser; [| discriminate].
      by injection Hser as <-. }
    destruct (decide (k = col)) as [->|Hne].
    + rewrite lookup_insert_eq. intros [= <-]. rewrite (Hs col m Hm). lia.
    + rewrite lookup_insert_ne by done. apply Hs.
Qed.

Lemma percentage_of_nothing part : Analyzer.percentage part 0 = 0%Qc.
Proof. unfold Analyzer.percentage. by rewrite decide_False by lia. Qed.

(** C8: for a file with a header and no data record the analysis
    returns a report, not an exception; it lists every column of the
    header and nothing else, and its counts are zero: [total_rows],
    [total_cells], [missing_cells], [duplicate_rows], the
    [missing_count] of every column, and with them the two kinds of
    percentage. *)
Theorem header_only_report n fs path sample c :
  (0 < n)%nat → fs !! path = Some (Csv c) → records c = [] →
  ∃ r, analyze_csv_quality n fs path sample = Ok r
    ∧ total_rows r = 0 ∧ total_cells r = 0 ∧ missing_cells r = 0
    ∧ duplicate_rows r = 0 ∧ missing_percentage r = 0%Qc
    ∧ total_columns r = Z.of_nat (length (header c))
    ∧ (∀ col, col ∈ header c ↔ is_Some (column_analysis r !! col))
    ∧ (∀ col p, column_analysis r !! col = Some p →
                missing_count p = 0 ∧ column_missing_percentage p = 0%Qc).
Proof.
  intros Hn Hf Hrec.
  assert (Hn' : n ≠ 0%nat) by lia.
  assert (Hrows : rows_seen (scanned n c) = 0).
  { rewrite total_rows_scanned by done. by rewrite Hrec. }
  assert (Hzero : ∀ k v, missing_counts (scanned n c) !! k = Some v → v = 0).
  { unfold scanned. rewrite Hrec. cbn [Reader.batches fmap list_fmap Analyzer.scan_chunks].
    apply scan_empty_chunk_zero. intros k v. simpl.
    rewrite lookup_dict_from_keys. case_decide; congruence. }
  eexists. split.
  { apply analyze_csv_quality_Ok. exists c. split; [done |]. split; [done | reflexivity]. }
  set (r := {| total_rows := rows_seen (scanned n c) |}).
  assert (Hr : analyze_csv_quality n fs path sample = Ok r).
  { apply analyze_csv_quality_Ok. exists c. split; [done |]. split; [done | reflexivity]. }
  cbn [total_rows total_cells missing_cells duplicate_rows missing_percentage total_columns r].
  rewrite Hrows, (sum_values_zero _ Hzero).
  repeat split.
  - intros Hin.
    destruct (column_analysis_lookup n fs path sample r col Hr) as (c' & Hf' & Hk).
    assert (c' = c) as -> by congruence.
    destruct Hk as [[Hnin _]|(_ & _ & _ & _ & _ & _ & _ & ->)]; [done | eauto].
  - intros Hsome.
    destruct (column_analysis_lookup n fs path sample r col Hr) as (c' & Hf' & Hk).
    assert (c' = c) as -> by congruence.
    destruct Hk as [[_ Hnone]|(Hin & _)]; [| done].
    rewrite Hnone in Hsome. by destruct Hsome.
  - destruct (column_analysis_lookup n fs path sample r col Hr) as (c' & Hf' & Hk).
    assert (c' = c) as -> by congruence.
    destruct Hk as [[_ Hnone]|(Hin & tracker & missing & vals & Hu & Hm & Hv & Hsome)];
      [congruence |].
    rewrite Hsome in H. injection H as <-.
    unfold Analyzer.profile_column. rewrite Hu, Hm, Hv. cbn [missing_count].
    by apply (Hzero col).
  - destruct (column_analysis_lookup n fs path sample r col Hr) as (c' & Hf' & Hk).
    assert (c' = c) as -> by congruence.
    destruct Hk as [[_ Hnone]|(Hin & tracker & missing & vals & Hu & Hm & Hv & Hsome)];
      [congruence |].
    rewrite Hsome in H. injection H as <-.
    unfold Analyzer.profile_column. rewrite Hu, Hm, Hv. cbn [column_missing_percentage].
    rewrite Hrows. apply percentage_of_nothing.
Qed.

Lemma header_only_report_witness :
  let fs : gmap string file := {[ "uploads/empty.csv" := Csv header_only_file ]} in
  ∃ r, analyze_csv_quality CHUNK_SIZE fs "uploads/empty.csv" 10000 = Ok r
    ∧ total_rows r = 0 ∧ total_cells r = 0 ∧ missing_cells r = 0
    ∧ duplicate_rows r = 0 ∧ missing_percentage r = 0%Qc
    ∧ total_columns r = Z.of_nat (length (header header_only_file))
    ∧ (∀ col, col ∈ header header_only_file ↔ is_Some (column_analysis r !! col))
    ∧ (∀ col p, column_analysis r !! col = Some p →
                missing_count p = 0 ∧ column_missing_percentage p = 0%Qc).
Proof.
  intros fs.
  apply (header_only_report CHUNK_SIZE fs "uploads/empty.csv" 10000 header_only_file);
    [vm_compute; lia | reflexivity | reflexivity].
Defined.

(** ** The tracker of distinct values *)

Section Trackers.
Import Analyzer.

Lemma length_add_uniques tracker vals :
  (length (add_uniques tracker vals) ≤ length tracker + 100)%nat.
Proof.
  unfold add_uniques.
  assert (Hl : (length (take 100 vals) ≤ 100)%nat) by (rewrite length_take; lia).
  revert Hl. generalize (take 100 vals) as l. generalize 100%nat as bound.
  intros bound l. revert tracker bound.
  induction l as [|v l IH]; intros tracker bound Hl; simpl in *; [lia |].
  destruct bound as [|bound]; [lia |].
  specialize (IH (if bool_decide (safe_convert_value v ∈ tracker) then tracker
                  else tracker ++ [safe_convert_value v]) bound).
  case_bool_decide; [specialize (IH ltac:(lia)); lia |].
  rewrite length_app in IH. simpl in IH. specialize (IH ltac:(lia)). lia.
Qed.

(** One pass over a column adds at most 100 values to its tracker,
    none after the third batch, and leaves the other trackers. *)
Lemma length_track_uniques i chunk col ut k :
  (length (track_uniques i chunk col ut !!! k)
   ≤ length (ut !!! k) + (if decide (k = col) then if (i <? 3)%nat then 100 else 0 else 0))%nat.
Proof.
  unfold track_uniques.
  destruct (i <? 3)%nat; simpl; [| destruct (decide (k = col)); lia].
  destruct (length (ut !!! col) <? 1000)%nat; [| destruct (decide (k = col)); lia].
  destruct (Pd.getitem chunk col) as [s|]; [| destruct (decide (k = col)); lia].
  destruct (decide (k = col)) as [->|Hne].
  - rewrite lookup_total_insert_eq. apply length_add_uniques.
  - rewrite lookup_total_insert_ne by done. lia.
Qed.

Lemma length_scan_columns i chunk cols st k :
  NoDup cols →
  (length (unique_trackers (foldl (scan_column i chunk) st cols) !!! k)
   ≤ length (unique_trackers st !!! k)
     + (if decide (k ∈ cols) then if (i <? 3)%nat then 100 else 0 else 0))%nat.
Proof.
  intros Hnd. revert st. induction Hnd as [|c cols Hc Hnd IH]; intros st.
  - simpl. lia.
  - cbn [foldl]. specialize (IH (scan_column i chunk st c)).
    pose proof (length_track_uniques i chunk c (unique_trackers st) k) as Hstep.
    cbn [scan_column unique_trackers] in IH.
    destruct (decide (k = c)) as [->|Hne].
    + rewrite decide_False in IH by done.
      rewrite decide_True by (by left). lia.
    + destruct (decide (k ∈ cols)) as [Hin|Hnin].
      * rewrite decide_True by (by right). lia.
      * rewrite decide_False by (by intros [?|?]%elem_of_cons). lia.
Qed.

Lemma length_scan_chunk i chunk cols st k :
  NoDup cols →
  (length (unique_trackers (scan_chunk cols i chunk st) !!! k)
   ≤ length (unique_trackers st !!! k) + (if (i <? 3)%nat then 100 else 0))%nat.
Proof.
  intros Hnd. unfold scan_chunk.
  etransitivity; [by apply length_scan_columns |].
  cbn [unique_trackers]. destruct (decide (k ∈ cols)); lia.
Qed.

Lemma length_scan_chunks i chunks cols st k :
  NoDup cols →
  (length (unique_trackers (scan_chunks cols i chunks st) !!! k)
   ≤ length (unique_trackers st !!! k) + 100 * (3 - i))%nat.
Proof.
  intros Hnd. revert i st. induction chunks as [|chunk rest IH]; intros i st.
  - simpl. lia.
  - cbn [scan_chunks]. specialize (IH (S i) (scan_chunk cols i chunk st)).
    pose proof (length_scan_chunk i chunk cols st k Hnd) as Hstep.
    destruct (i <? 3)%nat eqn:Hi.
    + apply Nat.ltb_lt in Hi. lia.
    + apply Nat.ltb_ge in Hi. lia.
Qed.

(** With distinct labels, no tracker ever holds more than 300 values. *)
Lemma length_scanned_tracker n c k :
  NoDup (header c) → (length (unique_trackers (scanned n c) !!! k) ≤ 300)%nat.
Proof.
  intros Hnd. unfold scanned.
  etransitivity; [by apply length_scan_chunks |].
  cbn [scan_start unique_trackers].
  rewrite lookup_total_alt, lookup_dict_from_keys.
  case_decide; simpl; lia.
Qed.

End Trackers.

(** X8: the text ['1000+'] is out of reach: with distinct labels,
    every ['unique_values'] of a report is a number, at most 300. *)
Lemma unique_values_at_most_300 n fs path sample r c col p :
  analyze_csv_quality n fs path sample = Ok r →
  fs !! path = Some (Csv c) → NoDup (header c) →
  column_analysis r !! col = Some p →
  ∃ k, unique_values p = UCount k ∧ 0 ≤ k ≤ 300.
Proof.
  intros Hr Hf Hnd Hp.
  destruct (column_analysis_lookup n fs path sample r col Hr) as (c' & Hf' & Hk).
  assert (c' = c) as -> by congruence.
  destruct Hk as [[_ Hnone]|(Hin & tracker & missing & vals & Hu & Hm & Hv & Hsome)];
    [congruence |].
  rewrite Hsome in Hp. injection Hp as <-.
  unfold Analyzer.profile_column. rewrite Hu, Hm, Hv. cbn [unique_values].
  pose proof (length_scanned_tracker n c col Hnd) as Hlen.
  rewrite lookup_total_alt, Hu in Hlen. simpl in Hlen.
  exists (Z.of_nat (length tracker)).
  rewrite decide_True by lia. split; [done | lia].
Qed.

Lemma wide_file_distinct : NoDup (records wide_file).
Proof.
  unfold wide_file. cbn [records].
  apply NoDup_fmap_2_strong; [| apply NoDup_seq].
  intros a b _ _ [= Hab]. by apply (inj pretty) in Hab.
Qed.

(** C1, on the code: a column with 2000 distinct values in a file of
    one batch.  The analysis does not report ['1000+'] for it: only the
    first 100 distinct values of a batch are added to the tracker, and
    the report says [unique_values = 100]. *)
Theorem two_thousand_distinct_values :
  NoDup (records wide_file) ∧ length (records wide_file) = 2000%nat ∧
  ∃ r p, analyze_csv_quality_chunked wide_fs "uploads/wide.csv" 10000 = Ok r
         ∧ column_analysis r !! "id" = Some p
         ∧ unique_values p = UCount 100
         ∧ unique_values p ≠ UText "1000+".
Proof.
  split; [apply wide_file_distinct |]. split; [reflexivity |].
  assert (Hrun :
    match analyze_csv_quality_chunked wide_fs "uploads/wide.csv" 10000 with
    | Ok r => unique_values <$> column_analysis r !! "id"
    | Raise _ => None
    end = Some (UCount 100)) by (vm_compute; reflexivity).
  destruct (analyze_csv_quality_chunked wide_fs "uploads/wide.csv" 10000) as [r|e];
    [| discriminate].
  destruct (column_analysis r !! "id") as [p|] eqn:Hid; [| discriminate].
  injection Hrun as Hp. exists r, p. rewrite Hp.
  split_and!; done.
Qed.

(** ** The per-cell options *)

Section Preprocessing.
Context `{PandasKernels}.

(** A step that keeps the labels and the number of rows, repeated
    over column positions, keeps them. *)
Lemma foldl_shape (step : DataFrame → nat → DataFrame) (positions : list nat) df :
  (∀ df i, columns (step df i) = columns df
           ∧ length (rows (step df i)) = length (rows df)) →
  columns (foldl step df positions) = columns df
  ∧ length (rows (foldl step df positions)) = length (rows df).
Proof.
  intros Hstep. revert df. induction positions as [|i positions IH]; intros df; [done |].
  cbn [foldl]. destruct (IH (step df i)) as [-> ->]. apply Hstep.
Qed.

Lemma set_column_shape i d vals df :
  columns (set_column i d vals df) = columns df
  ∧ length (rows (set_column i d vals df)) = length (rows df).
Proof. unfold set_column. cbn [columns rows]. by rewrite length_imap. Qed.

Lemma update_columns_shape sel f df :
  columns (update_columns sel f df) = columns df
  ∧ length (rows (update_columns sel f df)) = length (rows df).
Proof.
  unfold update_columns. apply foldl_shape. intros d i.
  destruct (sel _); [apply set_column_shape | done].
Qed.

Lemma convert_columns_shape df :
  columns (convert_columns df) = columns df
  ∧ length (rows (convert_columns df)) = length (rows df).
Proof.
  unfold convert_columns. apply foldl_shape. intros d i.
  destruct (to_numeric _) as [[dt vals]|]; [apply set_column_shape | done].
Qed.

(** No option changes the labels. *)
Lemma apply_preprocessing_options_columns df opts :
  columns (apply_preprocessing_options df opts) = columns df.
Proof.
  unfold apply_preprocessing_options, handle_missing_values.
  destruct (convert_types opts); [rewrite (proj1 (convert_columns_shape _)) |];
    (destruct (trim_whitespace opts); [rewrite (proj1 (update_columns_shape _ _ _)) |]);
    repeat case_decide; try done; by rewrite (proj1 (update_columns_shape _ _ _)).
Qed.

(** No option adds a row. *)
Lemma apply_preprocessing_options_len df opts :
  Pd.len (apply_preprocessing_options df opts) ≤ Pd.len df.
Proof.
  unfold Pd.len, apply_preprocessing_options, handle_missing_values.
  destruct (convert_types opts); [rewrite (proj2 (convert_columns_shape _)) |];
    (destruct (trim_whitespace opts); [rewrite (proj2 (update_columns_shape _ _ _)) |]);
    repeat case_decide; try lia;
    try (rewrite (proj2 (update_columns_shape _ _ _)); lia);
    unfold Pd.dropna_rows; cbn [rows];
    pose proof (length_filter (λ r, forallb (λ v, negb (isna v)) r = true) (rows df)); lia.
Qed.

(** Only [handle_missing = 'drop'] removes rows. *)
Lemma apply_preprocessing_options_len_keep df opts :
  handle_missing opts ≠ Some "drop" →
  Pd.len (apply_preprocessing_options df opts) = Pd.len df.
Proof.
  intros Hkeep.
  unfold Pd.len, apply_preprocessing_options, handle_missing_values.
  rewrite decide_False by done.
  destruct (convert_types opts); [rewrite (proj2 (convert_columns_shape _)) |];
    (destruct (trim_whitespace opts); [rewrite (proj2 (update_columns_shape _ _ _)) |]);
    repeat case_decide; try lia;
    rewrite (proj2 (update_columns_shape _ _ _)); lia.
Qed.

End Preprocessing.

(** ** Runs of the transform engine *)

Lemma CHUNK_SIZE_positive : (0 < CHUNK_SIZE)%nat.
Proof. unfold CHUNK_SIZE. lia. Qed.

Section Runs.
Context `{PandasKernels}.

Lemma bind_Ok {S T} (m : Fx S) (f : S → Fx T) w b w' :
  (m ≫= f) w = (Ok b, w') → ∃ a w1, m w = (Ok a, w1) ∧ f a w1 = (Ok b, w').
Proof.
  unfold mbind, Fx_bind. destruct (m w) as [[a|e] w1]; [eauto | discriminate].
Qed.

Lemma bind_run_Ok {S T} (m : Fx S) (f : S → Fx T) w a w1 :
  m w = (Ok a, w1) → (m ≫= f) w = f a w1.
Proof. unfold mbind, Fx_bind. by intros ->. Qed.

Lemma bind_run_Raise {S T} (m : Fx S) (f : S → Fx T) w e w1 :
  m w = (Raise e, w1) → (m ≫= f) w = (Raise e, w1).
Proof. unfold mbind, Fx_bind. by intros ->. Qed.

(** *** Reading *)

Lemma read_csv_Csv path nrows w c :
  files w !! path = Some (Csv c) → (∀ n, nrows = Some n → 0 ≤ n) →
  read_csv path nrows w
  = (Ok (frame_of_records (header c)
           match nrows with
           | Some n => take (Z.to_nat n) (records c)
           | None => records c
           end), w).
Proof.
  intros Hf Hn. unfold read_csv, lift, Reader.open_csv. rewrite Hf. simpl.
  destruct nrows as [n|]; [| done].
  unfold Reader.head_records. specialize (Hn n eq_refl).
  destruct (n <? 0) eqn:Hneg; [lia | done].
Qed.

Lemma read_csv_not_Csv path nrows w :
  (∀ c, files w !! path ≠ Some (Csv c)) →
  ∃ e, read_csv path nrows w = (Raise e, w).
Proof.
  intros Hf. unfold read_csv, lift, Reader.open_csv.
  destruct (files w !! path) as [[err|c]|]; simpl; eauto. by destruct (Hf c).
Qed.

Lemma read_csv_chunks_Csv path w c :
  files w !! path = Some (Csv c) →
  read_csv_chunks path CHUNK_SIZE w
  = (Ok (frame_of_records (header c) <$> Reader.batches CHUNK_SIZE (records c)), w).
Proof.
  intros Hf. unfold read_csv_chunks, lift, Reader.open_csv. rewrite Hf. simpl.
  pose proof CHUNK_SIZE_positive. destruct (decide (CHUNK_SIZE = 0%nat)); [lia | done].
Qed.

Lemma len_frame_of_records hdr recs :
  Pd.len (frame_of_records hdr recs) = Z.of_nat (length recs).
Proof. unfold Pd.len, frame_of_records. cbn [rows]. by rewrite !length_fmap. Qed.

(** *** The streaming loop *)

(** The loop runs to its end when the labels fit every batch; it
    returns the last running total, writes the processed batches to
    the output and sends one progress entry per batch. *)
Lemma process_chunks_run path out opts cols chunks is_first total w :
  Forall (λ chunk, standardize_columns opts = true →
                   length cols = length (columns chunk)) chunks →
  process_chunks path out opts cols chunks is_first total w
  = (Ok (total + foldr Z.add 0 (Pd.len <$> (processed opts cols <$> chunks))),
     {| files := stream_files out (processed opts cols <$> chunks) is_first (files w);
        redis := redis w
                 ++ (progress_entry path
                       <$> running_totals total
                             (Pd.len <$> (processed opts cols <$> chunks))) |}).
Proof.
  intros Hfit. revert is_first total w.
  induction Hfit as [|chunk rest Hchunk Hrest IH]; intros is_first total w.
  - simpl. unfold mret, Fx_ret. rewrite Z.add_0_r, app_nil_r. by destruct w.
  - cbn [process_chunks].
    assert (Hlabel :
      (if standardize_columns opts then set_labels cols chunk else mret chunk) w
      = (Ok (relabelled opts cols chunk), w)).
    { unfold relabelled, set_labels. destruct (standardize_columns opts); [| done].
      by rewrite decide_True by auto. }
    rewrite (bind_run_Ok _ _ _ _ _ Hlabel).
    unfold to_csv at 1, setex at 1, mbind, Fx_bind. cbn [files redis].
    rewrite IH. cbn [files redis].
    rewrite !fmap_cons. cbn [foldr running_totals stream_files].
    fold (processed opts cols chunk).
    f_equal; [f_equal; lia |]. f_equal.
    by rewrite <- app_assoc.
Qed.

(** *** The output file of the loop *)

Lemma stream_files_other out dfs is_first fs p :
  p ≠ out → stream_files out dfs is_first fs !! p = fs !! p.
Proof.
  intros Hp. revert is_first fs. induction dfs as [|df rest IH]; intros is_first fs; [done |].
  cbn [stream_files]. rewrite IH. by rewrite lookup_insert_ne.
Qed.

(** Appending keeps the header. *)
Lemma stream_files_append out dfs fs c0 :
  fs !! out = Some (Csv c0) →
  ∃ c1, stream_files out dfs false fs !! out = Some (Csv c1) ∧ header c1 = header c0.
Proof.
  revert fs c0. induction dfs as [|df rest IH]; intros fs c0 Hout; [eauto |].
  cbn [stream_files]. rewrite Hout.
  destruct (IH (<[out := written df mode_a (Some (Csv c0))]> fs)
               {| file_size := csv_size (header c0) (records c0 ++ csv_records df);
                  header := header c0;
                  records := records c0 ++ csv_records df |})
    as (c1 & Hc1 & Hh); [apply lookup_insert_eq |].
  exists c1. split; [exact Hc1 | by rewrite Hh].
Qed.

(** The header of the output is the labels of the first frame. *)
Lemma stream_files_header out df rest fs :
  ∃ c1, stream_files out (df :: rest) true fs !! out = Some (Csv c1)
        ∧ header c1 = columns df.
Proof.
  cbn [stream_files].
  destruct (stream_files_append out rest
              (<[out := written df mode_w (fs !! out)]> fs)
              {| file_size := csv_size (columns df) (csv_records df);
                 header := columns df;
                 records := csv_records df |})
    as (c1 & Hc1 & Hh); [apply lookup_insert_eq |].
  exists c1. split; [exact Hc1 | by rewrite Hh].
Qed.

End Runs.

Section Engine.
Context `{PandasKernels}.

(** A run in streaming mode on a CSV file. *)
Lemma preprocess_body_streaming path opts w c :
  files w !! path = Some (Csv c) → remove_duplicates opts = false →
  let written_chunks := processed opts (labels opts c) <$> chunks_of c in
  preprocess_body path opts w
  = (Ok {| status := "success";
           output_path := Some (output_of path);
           rows_processed := Some (foldr Z.add 0 (Pd.len <$> written_chunks));
           rows_removed := None;
           result_columns := Some (labels opts c);
           error := None |},
     {| files := stream_files (output_of path) written_chunks true (files w);
        redis := redis w
                 ++ (progress_entry path
                       <$> running_totals 0 (Pd.len <$> written_chunks)) |}).
Proof.
  intros Hf Hstream written_chunks. unfold preprocess_body.
  rewrite (bind_run_Ok _ _ _ _ _ (read_csv_Csv path (Some 100) w c Hf
                                    ltac:(by intros n [= <-]))).
  cbn [columns frame_of_records]. rewrite Hstream.
  rewrite (bind_run_Ok _ _ _ _ _ (read_csv_chunks_Csv path w c Hf)).
  fold (labels opts c).
  erewrite bind_run_Ok; [| apply process_chunks_run].
  - unfold mret, Fx_ret. by rewrite Z.add_0_l.
  - apply Forall_fmap, Forall_true. intros b _. cbn [columns frame_of_records].
    unfold labels. destruct (standardize_columns opts); [| done].
    by rewrite length_fmap.
Qed.

(** A run in whole-dataset mode on a CSV file. *)
Lemma preprocess_body_dedup path opts w c :
  files w !! path = Some (Csv c) → remove_duplicates opts = true →
  let df := frame_of_records (header c) (records c) in
  let kept := Pd.drop_duplicates df in
  let cleaned := apply_preprocessing_options kept opts in
  preprocess_body path opts w
  = (Ok {| status := "success";
           output_path := Some (output_of path);
           rows_processed := Some (Pd.len kept);
           rows_removed := Some (Pd.len df - Pd.len kept);
           result_columns := Some (columns cleaned);
           error := None |},
     {| files := <[output_of path := written cleaned mode_w (files w !! output_of path)]>
                   (files w);
        redis := redis w |}).
Proof.
  intros Hf Hdedup df kept cleaned. unfold preprocess_body.
  rewrite (bind_run_Ok _ _ _ _ _ (read_csv_Csv path (Some 100) w c Hf
                                    ltac:(by intros n [= <-]))).
  rewrite Hdedup.
  rewrite (bind_run_Ok _ _ _ _ _ (read_csv_Csv path None w c Hf ltac:(done))).
  done.
Qed.

(** A run on a path that holds no CSV file. *)
Lemma preprocess_body_not_Csv path opts w :
  (∀ c, files w !! path ≠ Some (Csv c)) →
  ∃ e, preprocess_body path opts w = (Raise e, w).
Proof.
  intros Hf. destruct (read_csv_not_Csv path (Some 100) w Hf) as [e He].
  exists e. unfold preprocess_body. by rewrite (bind_run_Raise _ _ _ _ _ He).
Qed.

(** Every return statement under [try] sets [status] to
    ['success']. *)
Lemma preprocess_body_Ok path opts w r w' :
  preprocess_body path opts w = (Ok r, w') →
  status r = "success" ∧ error r = None.
Proof.
  intros Hrun.
  destruct (files w !! path) as [[err|c]|] eqn:Hf.
  - destruct (preprocess_body_not_Csv path opts w) as [e He]; [| congruence].
    intros c. rewrite Hf. congruence.
  - destruct (remove_duplicates opts) eqn:Hd.
    + rewrite (preprocess_body_dedup path opts w c Hf Hd) in Hrun.
      by injection Hrun as <- <-.
    + rewrite (preprocess_body_streaming path opts w c Hf Hd) in Hrun.
      by injection Hrun as <- <-.
  - destruct (preprocess_body_not_Csv path opts w) as [e He]; [| congruence].
    intros c. rewrite Hf. congruence.
Qed.

End Engine.

(** C4: whatever the path, the options and the state of the files,
    [preprocess_csv_task_chunked] returns a result dictionary.  When
    the statements under [try] run to a [return], it is their result
    and its status is ['success']; when one of them raises, the
    result has status ['error'] and carries the message of the
    exception.  There is no third case. *)
Theorem preprocess_never_raises `{PandasKernels} path opts w :
  let (r, w') := preprocess_csv_task_chunked path opts w in
  (preprocess_body path opts w = (Ok r, w')
   ∧ status r = "success" ∧ error r = None)
  ∨ (∃ e, preprocess_body path opts w = (Raise e, w')
          ∧ status r = "error" ∧ error r = Some e
          ∧ output_path r = None ∧ rows_processed r = None).
Proof.
  unfold preprocess_csv_task_chunked.
  destruct (preprocess_body path opts w) as [[r|e] w'] eqn:Hrun.
  - left. split; [done |]. by apply (preprocess_body_Ok path opts w r w').
  - right. exists e. done.
Qed.

(** A failing run: the path holds no file, reading raises, and the
    caller gets an error result with the message. *)
Lemma preprocess_missing_file `{PandasKernels} path opts w :
  files w !! path = None →
  preprocess_csv_task_chunked path opts w
  = ({| status := "error"; output_path := None; rows_processed := None;
        rows_removed := None; result_columns := None;
        error := Some ("[Errno 2] No such file or directory: '" ++ path ++ "'")%string |},
     w).
Proof.
  intros Hf. unfold preprocess_csv_task_chunked, preprocess_body.
  erewrite bind_run_Raise; [done |].
  unfold read_csv, lift, Reader.open_csv. by rewrite Hf.
Qed.

(** ** Whole-dataset mode *)

Section Duplicates.




End Duplicates.



(** The scenario of C5 on the file of five records. *)
Example remove_duplicates_scenario :
  let opts := {| handle_missing := None; trim_whitespace := false; convert_types := false;
                 standardize_columns := false; remove_duplicates := true |} in
  let r := fst (preprocess_csv_task_chunked (H := text_kernels)
                  "uploads/people.csv" opts people_world) in
  status r = "success" ∧ rows_processed r = Some 4 ∧ rows_removed r = Some 1.
Proof. vm_compute. done. Qed.

(** ** Column labels *)

Lemma batches_nonempty {T} n (l : list T) : Reader.batches n l ≠ [].
Proof. unfold Reader.batches. by destruct l. Qed.

(** The scenario of C6 on the labels themselves. *)
Example standardize_scenario :
  standardize <$> ["First Name"; "Last Name"] = ["first_name"; "last_name"].
Proof. reflexivity. Qed.

(** In streaming mode with [standardize_columns], the header of the
    output is the header of the input with every label standardized,
    and the result lists the same labels.  The standardized labels are
    taken to be distinct: the per-cell options go by label. *)
Lemma streaming_header_standardized `{PandasKernels} path opts w c :
  files w !! path = Some (Csv c) →
  remove_duplicates opts = false → standardize_columns opts = true →
  NoDup (standardize <$> header c) →
  ∃ r w' c', preprocess_csv_task_chunked path opts w = (r, w')
    ∧ status r = "success"
    ∧ files w' !! output_of path = Some (Csv c')
    ∧ header c' = standardize <$> header c
    ∧ result_columns r = Some (standardize <$> header c).
Proof.
  intros Hf Hstream Hstd _.
  pose proof (preprocess_body_streaming path opts w c Hf Hstream) as Hrun.
  cbv zeta in Hrun.
  assert (Hlabels : labels opts c = standardize <$> header c)
    by (unfold labels; by rewrite Hstd).
  unfold chunks_of in Hrun.
  destruct (Reader.batches CHUNK_SIZE (records c)) as [|b rest] eqn:Hb;
    [by apply batches_nonempty in Hb |].
  rewrite !fmap_cons in Hrun.
  destruct (stream_files_header (output_of path)
              (processed opts (labels opts c) (frame_of_records (header c) b))
              (processed opts (labels opts c) <$> (frame_of_records (header c) <$> rest))
              (files w)) as (c' & Hc' & Hheader).
  eexists. eexists. exists c'. split.
  { unfold preprocess_csv_task_chunked. rewrite Hrun. reflexivity. }
  cbn [status files result_columns]. split_and!; try done.
  - rewrite Hheader. unfold processed.
    rewrite apply_preprocessing_options_columns. unfold relabelled.
    by rewrite Hstd.
  - by rewrite Hlabels.
Qed.

(** In whole-dataset mode the header of the output is the header of
    the input as it stands, whatever [standardize_columns] says. *)
Lemma dedup_header_unchanged `{PandasKernels} path opts w c :
  files w !! path = Some (Csv c) → remove_duplicates opts = true →
  ∃ r w' c', preprocess_csv_task_chunked path opts w = (r, w')
    ∧ status r = "success"
    ∧ files w' !! output_of path = Some (Csv c')
    ∧ header c' = header c
    ∧ result_columns r = Some (header c).
Proof.
  intros Hf Hdedup.
  pose proof (preprocess_body_dedup path opts w c Hf Hdedup) as Hrun.
  cbv zeta in Hrun.
  eexists. eexists. eexists. split.
  { unfold preprocess_csv_task_chunked. rewrite Hrun. reflexivity. }
  cbn [status files result_columns]. split_and!.
  - done.
  - rewrite lookup_insert_eq. reflexivity.
  - cbn [header]. by rewrite apply_preprocessing_options_columns.
  - by rewrite apply_preprocessing_options_columns.
Qed.

(** C6, on the code: [standardize_columns] together with
    [remove_duplicates] on a file whose header is
    [First Name,Last Name].  The run succeeds and the header of the
    output is still [First Name,Last Name], not
    [first_name,last_name]; the result lists the unchanged labels. *)
Theorem standardize_lost_with_remove_duplicates :
  let opts := {| handle_missing := None; trim_whitespace := false; convert_types := false;
                 standardize_columns := true; remove_duplicates := true |} in
  ∃ r w' c', preprocess_csv_task_chunked (H := text_kernels)
               "uploads/people.csv" opts people_world = (r, w')
    ∧ status r = "success"
    ∧ files w' !! "uploads/people_processed.csv" = Some (Csv c')
    ∧ header c' = ["First Name"; "Last Name"]
    ∧ header c' ≠ standardize <$> header people_file
    ∧ result_columns r = Some ["First Name"; "Last Name"].
Proof.
  intros opts. eexists. eexists. eexists.
  split; [vm_compute; reflexivity |].
  split; [reflexivity |].
  split; [vm_compute; reflexivity |].
  split_and!; done.
Qed.

(** ** Progress entries *)

Lemma running_totals_sorted start sizes :
  Forall (λ n, 0 ≤ n) sizes →
  Forall (λ t, start ≤ t) (running_totals start sizes)
  ∧ StronglySorted Z.le (running_totals start sizes).
Proof.
  intros Hsizes. revert start.
  induction Hsizes as [|n rest Hn Hrest IH]; intros start; cbn [running_totals].
  - split; constructor.
  - destruct (IH (start + n)) as [Hbound Hsorted]. split.
    + constructor; [lia |]. eapply Forall_impl; [exact Hbound |]. simpl. lia.
    + constructor; [done |]. exact Hbound.
Qed.

Lemma length_running_totals start sizes :
  length (running_totals start sizes) = length sizes.
Proof. revert start. induction sizes as [|n rest IH]; intros start; simpl; auto. Qed.

(** With [handle_missing = 'drop'] the engine counts a batch after
    the rows with a missing cell were removed from it: for the file of
    five records the value sent is 4. *)
Lemma progress_counts_rows_read_fails :
  let opts := {| handle_missing := Some "drop"; trim_whitespace := false;
                 convert_types := false; standardize_columns := false;
                 remove_duplicates := false |} in
  ¬ progress_counts_rows_read (H := text_kernels) "uploads/people.csv" opts people_world.
Proof.
  intros opts Hclaim. specialize (Hclaim people_file eq_refl eq_refl).
  vm_compute in Hclaim. discriminate.
Qed.

(** C9, amended: in streaming mode on a CSV file the run succeeds and
    sends one [setex] per batch, in order, each under the key
    [progress:] followed by the path, with a time of 300 seconds.  The
    value sent after a batch is the total number of rows of the
    batches written so far, counted after the per-cell options were
    applied; a batch never counts for more rows than were read, and
    for exactly as many unless [handle_missing] is ['drop'].  The
    values never decrease, and the last total is the [rows_processed]
    of the result.  This is for a run that does not write over the
    file it reads (the output path is not the input path) and whose
    labels, as the engine computes them, are distinct (and computed
    from ASCII labels when they are standardized): the per-cell
    options go by label. *)
Theorem progress_after_every_batch `{PandasKernels} path opts w c :
  files w !! path = Some (Csv c) → remove_duplicates opts = false →
  output_of path ≠ path → usable_labels opts c →
  let batches := Reader.batches CHUNK_SIZE (records c) in
  let sizes := Pd.len <$> (processed opts (labels opts c) <$> chunks_of c) in
  ∃ r w', preprocess_csv_task_chunked path opts w = (r, w')
    ∧ status r = "success"
    ∧ redis w' = redis w ++ (progress_entry path <$> running_totals 0 sizes)
    ∧ length (running_totals 0 sizes) = length batches
    ∧ StronglySorted Z.le (running_totals 0 sizes)
    ∧ Forall2 (λ size b, 0 ≤ size ≤ Z.of_nat (length b)) sizes batches
    ∧ (handle_missing opts ≠ Some "drop" →
       sizes = (λ b, Z.of_nat (length b)) <$> batches)
    ∧ rows_processed r = Some (foldr Z.add 0 sizes).
Proof.
  intros Hf Hstream _ _ batches sizes.
  pose proof (preprocess_body_streaming path opts w c Hf Hstream) as Hrun.
  cbv zeta in Hrun. fold sizes in Hrun.
  assert (Hsizes : sizes
                   = (λ b, Pd.len (processed opts (labels opts c)
                                     (frame_of_records (header c) b))) <$> batches).
  { unfold sizes, chunks_of, batches. by rewrite <- !list_fmap_compose. }
  assert (Hbounds : Forall2 (λ size b, 0 ≤ size ≤ Z.of_nat (length b)) sizes batches).
  { rewrite Hsizes. apply Forall2_fmap_l, Forall_Forall2_diag, Forall_true.
    intros b. split; [unfold Pd.len; lia |].
    etransitivity; [apply apply_preprocessing_options_len |].
    unfold relabelled. destruct (standardize_columns opts);
      [unfold Pd.len; cbn [rows]; fold (Pd.len (frame_of_records (header c) b)) |];
      by rewrite len_frame_of_records. }
  eexists. eexists. split.
  { unfold preprocess_csv_task_chunked. rewrite Hrun. reflexivity. }
  cbn [status redis rows_processed]. split_and!; try done.
  - rewrite length_running_totals, Hsizes. by rewrite length_fmap.
  - apply running_totals_sorted.
    eapply Forall2_Forall_l; [exact Hbounds |]. apply Forall_true. simpl. lia.
  - intros Hkeep. rewrite Hsizes. apply list_fmap_ext. intros i b _.
    unfold processed. rewrite apply_preprocessing_options_len_keep by done.
    unfold relabelled. destruct (standardize_columns opts);
      [unfold Pd.len; cbn [rows]; fold (Pd.len (frame_of_records (header c) b)) |];
      by rewrite len_frame_of_records.
Qed.

Lemma progress_after_every_batch_witness :
  let opts := {| handle_missing := Some "drop"; trim_whitespace := false;
                 convert_types := false; standardize_columns := false;
                 remove_duplicates := false |} in
  let batches := Reader.batches CHUNK_SIZE (records people_file) in
  let sizes := Pd.len <$> (processed (H := text_kernels) opts
                             (labels opts people_file)
                             <$> chunks_of (H := text_kernels) people_file) in
  ∃ r w', preprocess_csv_task_chunked (H := text_kernels)
            "uploads/people.csv" opts people_world = (r, w')
    ∧ status r = "success"
    ∧ redis w' = redis people_world
                 ++ (progress_entry "uploads/people.csv" <$> running_totals 0 sizes)
    ∧ length (running_totals 0 sizes) = length batches
    ∧ StronglySorted Z.le (running_totals 0 sizes)
    ∧ Forall2 (λ size b, 0 ≤ size ≤ Z.of_nat (length b)) sizes batches
    ∧ (handle_missing opts ≠ Some "drop" →
       sizes = (λ b, Z.of_nat (length b)) <$> batches)
    ∧ rows_processed r = Some (foldr Z.add 0 sizes).
Proof.
  intros opts.
  apply (progress_after_every_batch (H := text_kernels) "uploads/people.csv" opts
           people_world people_file);
    [reflexivity | reflexivity
    | intros Heq; vm_compute in Heq; discriminate Heq
    | split; [apply (bool_decide_unpack _); vm_compute; exact I
             | intros _; reflexivity]].
Defined.

(** * More of the controller *)

(** ** One column through the scan *)

Section Keyed.
Context {V : Type}.

(** A loop over distinct keys whose body touches the entry of its own
    key only, and reads no other entry. *)
Lemma lookup_foldl_keyed (upd : string → gmap string V → gmap string V)
    (cols : list string) (m : gmap string V) k :
  (∀ c m k, k ≠ c → upd c m !! k = m !! k) →
  (∀ c m m', m !! c = m' !! c → upd c m !! c = upd c m' !! c) →
  NoDup cols →
  foldl (λ m c, upd c m) m cols !! k
  = if decide (k ∈ cols) then upd k m !! k else m !! k.
Proof.
  intros Hother Hown Hnd. revert m.
  induction Hnd as [|c cs Hc Hnd IH]; intros m; simpl.
  - done.
  - rewrite IH. destruct (decide (k = c)) as [->|Hk].
    + rewrite decide_False by done. rewrite decide_True by left. done.
    + destruct (decide (k ∈ cs)) as [Hin|Hin].
      * rewrite decide_True by (by right). apply Hown. by apply Hother.
      * rewrite decide_False by (intros [?|?]%elem_of_cons; done). by apply Hother.
Qed.

End Keyed.

Section Column.
Import Analyzer.

Lemma missing_counts_foldl i chunk st cols :
  missing_counts (foldl (scan_column i chunk) st cols)
  = foldl (λ m c, count_missing chunk c m) (missing_counts st) cols.
Proof. revert st. induction cols as [|c cs IH]; intros st; simpl; [done|]. by rewrite IH. Qed.

Lemma unique_trackers_foldl i chunk st cols :
  unique_trackers (foldl (scan_column i chunk) st cols)
  = foldl (λ m c, track_uniques i chunk c m) (unique_trackers st) cols.
Proof. revert st. induction cols as [|c cs IH]; intros st; simpl; [done|]. by rewrite IH. Qed.

Lemma sample_values_foldl i chunk st cols :
  sample_values (foldl (scan_column i chunk) st cols)
  = foldl (λ m c, collect_samples chunk c m) (sample_values st) cols.
Proof. revert st. induction cols as [|c cs IH]; intros st; simpl; [done|]. by rewrite IH. Qed.

Lemma count_missing_other chunk c m k : k ≠ c → count_missing chunk c m !! k = m !! k.
Proof.
  intros Hk. unfold count_missing.
  destruct (m !! c), (Pd.getitem chunk c); try done. by rewrite lookup_insert_ne.
Qed.

Lemma count_missing_own chunk c m m' :
  m !! c = m' !! c → count_missing chunk c m !! c = count_missing chunk c m' !! c.
Proof.
  intros Hc. unfold count_missing. rewrite <- Hc.
  destruct (m !! c) eqn:Hm, (Pd.getitem chunk c); rewrite ?lookup_insert_eq; congruence.
Qed.

Lemma collect_samples_other chunk c m k : k ≠ c → collect_samples chunk c m !! k = m !! k.
Proof.
  intros Hk. unfold collect_samples.
  destruct (_ <? _)%nat, (Pd.getitem chunk c); try done. by rewrite lookup_insert_ne.
Qed.

Lemma collect_samples_own chunk c m m' :
  m !! c = m' !! c → collect_samples chunk c m !! c = collect_samples chunk c m' !! c.
Proof.
  intros Hc. unfold collect_samples.
  assert (m !!! c = m' !!! c) as -> by (by rewrite !lookup_total_alt, Hc).
  destruct (_ <? _)%nat, (Pd.getitem chunk c); rewrite ?lookup_insert_eq; congruence.
Qed.

Lemma track_uniques_other i chunk c m k : k ≠ c → track_uniques i chunk c m !! k = m !! k.
Proof.
  intros Hk. unfold track_uniques.
  destruct (_ && _), (Pd.getitem chunk c); try done. by rewrite lookup_insert_ne.
Qed.

Lemma track_uniques_own i chunk c m m' :
  m !! c = m' !! c → track_uniques i chunk c m !! c = track_uniques i chunk c m' !! c.
Proof.
  intros Hc. unfold track_uniques.
  assert (m !!! c = m' !!! c) as -> by (by rewrite !lookup_total_alt, Hc).
  destruct (_ && _), (Pd.getitem chunk c); rewrite ?lookup_insert_eq; congruence.
Qed.

(** What one batch does to the entries of a column. *)
Lemma scan_chunk_column cols i chunk st col :
  NoDup cols → col ∈ cols →
  missing_counts (scan_chunk cols i chunk st) !! col
  = count_missing chunk col (missing_counts st) !! col
  ∧ unique_trackers (scan_chunk cols i chunk st) !! col
    = track_uniques i chunk col (unique_trackers st) !! col
  ∧ sample_values (scan_chunk cols i chunk st) !! col
    = collect_samples chunk col (sample_values st) !! col.
Proof.
  intros Hnd Hin. unfold scan_chunk.
  rewrite missing_counts_foldl, unique_trackers_foldl, sample_values_foldl. simpl.
  rewrite (lookup_foldl_keyed (count_missing chunk))
    by eauto using count_missing_other, count_missing_own.
  rewrite (lookup_foldl_keyed (track_uniques i chunk))
    by eauto using track_uniques_other, track_uniques_own.
  rewrite (lookup_foldl_keyed (collect_samples chunk))
    by eauto using collect_samples_other, collect_samples_own.
  by rewrite !decide_True by done.
Qed.

Lemma index_of_lookup cols i col :
  NoDup cols → cols !! i = Some col → Pd.index_of col cols = Some i.
Proof.
  intros Hnd. revert i. induction Hnd as [|c cs Hc Hnd IH]; intros i Hi; [done|].
  simpl. destruct i as [|i]; simpl in Hi.
  - injection Hi as ->. by rewrite String.eqb_refl.
  - destruct (String.eqb col c) eqn:E.
    + apply String.eqb_eq in E as ->. by apply list_elem_of_lookup_2 in Hi.
    + by rewrite (IH i Hi).
Qed.

(** A column of a batch read as text: the cells of the records. *)
Lemma getitem_text hdr recs col i :
  Pd.index_of col hdr = Some i →
  ∃ d, Pd.getitem (Reader.frame_of_text hdr recs) col
       = Some {| s_dtype := d; s_values := Reader.text_cell <$> cells_at (length hdr) i recs |}.
Proof.
  intros Hi. unfold Pd.getitem. simpl. rewrite Hi. simpl. eexists. do 2 f_equal.
  unfold cells_at. rewrite <- !list_fmap_compose. apply list_fmap_ext. intros _ r _. simpl.
  change NaN with (Reader.text_cell None). apply map_nth.
Qed.

Lemma isnull_sum_text d cells :
  Pd.isnull_sum {| s_dtype := d; s_values := Reader.text_cell <$> cells |}
  = missing_in cells.
Proof.
  unfold Pd.isnull_sum, missing_in. simpl. f_equal.
  induction cells as [|[s|] cells IH]; [done|..]; rewrite fmap_cons.
  - rewrite filter_cons_False by done. rewrite filter_cons_False by done. done.
  - rewrite filter_cons_True by done. rewrite filter_cons_True by done. simpl. by rewrite IH.
Qed.

Lemma dropna_text cells :
  Pd.dropna (Reader.text_cell <$> cells) = VStr <$> omap id cells.
Proof.
  unfold Pd.dropna. induction cells as [|[s|] cells IH]; [done|..]; rewrite fmap_cons.
  - rewrite filter_cons_True by done. rewrite IH. done.
  - rewrite filter_cons_False by done. done.
Qed.

Lemma add_samples_take cur vals :
  (length cur ≤ 3)%nat →
  add_samples cur vals = take 3 (cur ++ (safe_convert_value <$> vals)).
Proof.
  unfold add_samples. revert cur. induction vals as [|v vals IH]; intros cur Hcur; simpl.
  - rewrite app_nil_r. by rewrite take_ge.
  - destruct (length cur <? 3)%nat eqn:E.
    + apply Nat.ltb_lt in E. rewrite IH by (rewrite length_app; simpl; lia).
      by rewrite <- app_assoc.
    + apply Nat.ltb_ge in E. rewrite IH by done.
      rewrite !take_app_le by lia. done.
Qed.

(** The samples of a column after a batch: still the first three
    texts of the cells read so far. *)
Lemma samples_step (before cells : list (option string)) :
  let cur := take 3 (JStr <$> omap id before) in
  (if (length cur <? 3)%nat
   then add_samples cur (take 3 (Pd.dropna (Reader.text_cell <$> cells)))
   else cur)
  = take 3 (JStr <$> omap id (before ++ cells)).
Proof.
  intros cur. rewrite omap_app, fmap_app.
  assert (length cur ≤ 3)%nat as Hcur by (unfold cur; rewrite length_take; lia).
  destruct (length cur <? 3)%nat eqn:E.
  - apply Nat.ltb_lt in E. rewrite add_samples_take by done.
    assert (cur = JStr <$> omap id before) as Hall.
    { unfold cur. apply take_ge. unfold cur in E. rewrite length_take in E. lia. }
    rewrite Hall, dropna_text, <- fmap_take, <- list_fmap_compose.
    rewrite (list_fmap_ext (safe_convert_value ∘ VStr) JStr (take 3 (omap id cells)))
      by done.
    rewrite fmap_take. rewrite !take_app. rewrite take_take.
    f_equal. f_equal. lia.
  - apply Nat.ltb_ge in E. unfold cur in *. rewrite length_take in E.
    rewrite take_app_le by lia. done.
Qed.

Lemma cells_at_app w i l1 l2 : cells_at w i (l1 ++ l2) = cells_at w i l1 ++ cells_at w i l2.
Proof. apply fmap_app. Qed.

Lemma missing_in_cons x cells :
  missing_in (x :: cells) = (if decide (x = None) then 1 else 0) + missing_in cells.
Proof.
  unfold missing_in. destruct (decide (x = None)).
  - rewrite filter_cons_True by done. simpl length. lia.
  - rewrite filter_cons_False by done. lia.
Qed.

Lemma missing_in_app l1 l2 : missing_in (l1 ++ l2) = missing_in l1 + missing_in l2.
Proof. unfold missing_in. rewrite filter_app, length_app. lia. Qed.

Lemma missing_in_bounds l : 0 ≤ missing_in l ≤ Z.of_nat (length l).
Proof.
  unfold missing_in. pose proof (length_filter (λ x : option string, x = None) l). lia.
Qed.

(** The entries of a column after the batches [bs], when before them
    the column had [v] missing cells and the cells [before]. *)
Lemma scan_chunks_column hdr col i k bs st v before :
  NoDup hdr → hdr !! i = Some col →
  missing_counts st !! col = Some v →
  sample_values st !! col = Some (take 3 (JStr <$> omap id before)) →
  missing_counts
    (scan_chunks hdr k (Reader.frame_of_text hdr <$> bs) st) !! col
  = Some (v + missing_in (cells_at (length hdr) i (concat bs)))
  ∧ sample_values
      (scan_chunks hdr k (Reader.frame_of_text hdr <$> bs) st) !! col
    = Some (take 3 (JStr <$> omap id (before ++ cells_at (length hdr) i (concat bs)))).
Proof.
  intros Hnd Hi. pose proof (index_of_lookup _ _ _ Hnd Hi) as Hix.
  assert (col ∈ hdr) as Hin by (by eapply list_elem_of_lookup_2).
  revert k st v before. induction bs as [|b bs IH]; intros k st v before Hv Hs.
  - simpl. rewrite app_nil_r. change (missing_in []) with 0. by rewrite Z.add_0_r.
  - rewrite fmap_cons. cbn [scan_chunks concat].
    destruct (scan_chunk_column hdr k (Reader.frame_of_text hdr b) st col Hnd Hin)
      as (Hm & _ & Hsv).
    destruct (getitem_text hdr b col i Hix) as [d Hget].
    unfold count_missing in Hm. rewrite Hv, Hget, lookup_insert_eq in Hm.
    unfold collect_samples in Hsv. rewrite lookup_total_alt, Hs, Hget in Hsv.
    cbn [default s_values] in Hsv.
    assert (sample_values (scan_chunk hdr k (Reader.frame_of_text hdr b) st) !! col
            = Some (take 3 (JStr <$> omap id (before ++ cells_at (length hdr) i b)))) as Hsv'.
    { rewrite Hsv. rewrite <- samples_step.
      destruct (length _ <? 3)%nat; [by rewrite lookup_insert_eq|done]. }
    destruct (IH (S k) _ _ _ Hm Hsv') as [IHm IHs]. split.
    + rewrite IHm. f_equal. rewrite isnull_sum_text, cells_at_app, missing_in_app. lia.
    + rewrite IHs. by rewrite cells_at_app, app_assoc.
Qed.

(** The entries of a column at the end of the scan, whatever the
    batch size. *)
Lemma scanned_column n c col i :
  (0 < n)%nat → NoDup (header c) → header c !! i = Some col →
  missing_counts (scanned n c) !! col = Some (missing_in (file_column c i))
  ∧ sample_values (scanned n c) !! col = Some (take 3 (JStr <$> omap id (file_column c i))).
Proof.
  intros Hn Hnd Hi. unfold scanned.
  assert (col ∈ header c) as Hin by (by eapply list_elem_of_lookup_2).
  destruct (scan_chunks_column (header c) col i 0 (Reader.batches n (records c))
              (scan_start (header c)) 0 [] Hnd Hi) as [Hm Hs].
  - simpl. rewrite lookup_dict_from_keys. by rewrite decide_True.
  - simpl. rewrite lookup_dict_from_keys. by rewrite decide_True.
  - rewrite batches_concat in Hm, Hs by done. split; [by rewrite Hm|by rewrite Hs].
Qed.

End Column.

(** The profile of a column in the report. *)
Lemma profile_of_column n fs path sample r c i col p :
  analyze_csv_quality n fs path sample = Ok r →
  fs !! path = Some (Csv c) → NoDup (header c) →
  header c !! i = Some col → column_analysis r !! col = Some p →
  missing_count p = missing_in (file_column c i)
  ∧ samples p = JStr <$> take 3 (omap id (file_column c i))
  ∧ column_missing_percentage p
    = Analyzer.percentage (missing_in (file_column c i)) (total_rows r)
  ∧ total_rows r = Z.of_nat (length (file_column c i)).
Proof.
  intros Hr Hc Hnd Hi Hp.
  pose proof Hr as Hok. apply analyze_csv_quality_Ok in Hok as (c' & Hc' & Hn & Hrep).
  assert (c' = c) as -> by congruence.
  destruct (column_analysis_lookup _ _ _ _ _ col Hr) as (c' & Hc'' & Hcase).
  assert (c' = c) as -> by congruence.
  destruct Hcase as [[Hnot _]|(_ & tracker & missing & vals & Ht & Hm & Hs & Hprof)].
  { destruct Hnot. by eapply list_elem_of_lookup_2. }
  destruct (scanned_column n c col i) as [Hm' Hs']; [lia|done..|].
  rewrite Hp in Hprof. injection Hprof as ->.
  unfold Analyzer.profile_column. rewrite Ht, Hm, Hs. cbn.
  rewrite Hm' in Hm. injection Hm as <-. rewrite Hs' in Hs. injection Hs as <-.
  rewrite Hrep. cbn. split_and!; [done| |done|].
  - rewrite take_take, fmap_take. done.
  - rewrite total_rows_scanned by done. unfold file_column, cells_at.
    by rewrite length_fmap.
Qed.

(** X1: for a file with distinct labels, the missing_count of a
    column is the number of missing cells of that column in the whole
    file, whatever the batch size, and it is at most total_rows. *)
Theorem missing_count_exact n fs path sample r c i col p :
  analyze_csv_quality n fs path sample = Ok r →
  fs !! path = Some (Csv c) → NoDup (header c) →
  header c !! i = Some col → column_analysis r !! col = Some p →
  missing_count p = missing_in (file_column c i)
  ∧ 0 ≤ missing_count p ≤ total_rows r.
Proof.
  intros Hr Hc Hnd Hi Hp.
  destruct (profile_of_column _ _ _ _ _ _ _ _ _ Hr Hc Hnd Hi Hp) as (Hm & _ & _ & Hrows).
  split; [done|]. rewrite Hm, Hrows. apply missing_in_bounds.
Qed.

Lemma missing_count_exact_witness :
  ∃ r p, analyze_csv_quality 2 demo_fs "uploads/demo.csv" 10000 = Ok r
    ∧ column_analysis r !! "b" = Some p
    ∧ missing_count p = missing_in (file_column demo_file 1)
    ∧ 0 ≤ missing_count p ≤ total_rows r.
Proof.
  eexists. eexists. split; [vm_compute; reflexivity |].
  split; [vm_compute; reflexivity |].
  eapply (missing_count_exact 2 demo_fs "uploads/demo.csv" 10000 _ demo_file 1 "b");
    [vm_compute; reflexivity | reflexivity
    | apply (bool_decide_unpack _); vm_compute; exact I
    | reflexivity | vm_compute; reflexivity].
Defined.

(** X2: the sample_values of a column are the first three texts of
    the column that are not missing, in file order, whatever the batch
    size. *)
Theorem samples_first_three n fs path sample r c i col p :
  analyze_csv_quality n fs path sample = Ok r →
  fs !! path = Some (Csv c) → NoDup (header c) →
  header c !! i = Some col → column_analysis r !! col = Some p →
  samples p = JStr <$> take 3 (omap id (file_column c i)).
Proof.
  intros Hr Hc Hnd Hi Hp.
  by destruct (profile_of_column _ _ _ _ _ _ _ _ _ Hr Hc Hnd Hi Hp) as (_ & Hs & _).
Qed.

Lemma samples_first_three_witness :
  ∃ r p, analyze_csv_quality 1 demo_fs "uploads/demo.csv" 10000 = Ok r
    ∧ column_analysis r !! "b" = Some p
    ∧ samples p = JStr <$> take 3 (omap id (file_column demo_file 1)).
Proof.
  eexists. eexists. split; [vm_compute; reflexivity |].
  split; [vm_compute; reflexivity |].
  eapply (samples_first_three 1 demo_fs "uploads/demo.csv" 10000 _ demo_file 1 "b");
    [vm_compute; reflexivity | reflexivity
    | apply (bool_decide_unpack _); vm_compute; exact I
    | reflexivity | vm_compute; reflexivity].
Defined.

(** ** The missing cells of the table *)

Section Table.

Lemma sum_pointwise {T} (f g : T → Z) (l : list T) :
  foldr Z.add 0 ((λ i, f i + g i) <$> l)
  = foldr Z.add 0 (f <$> l) + foldr Z.add 0 (g <$> l).
Proof.
  induction l as [|x l IH]; [done|]. rewrite !fmap_cons. cbn [foldr]. rewrite IH. lia.
Qed.

Lemma sum_of_zeros {T} (l : list T) : foldr Z.add 0 ((λ _, 0) <$> l) = 0.
Proof. induction l as [|x l IH]; [done|]. rewrite fmap_cons. cbn [foldr]. by rewrite IH. Qed.

Lemma sum_by_position (l : list (option string)) :
  foldr Z.add 0 ((λ i, if decide (nth i l None = None) then 1 else 0) <$> seq 0 (length l))
  = missing_in l.
Proof.
  induction l as [|x l IH]; [done|].
  cbn [length seq]. rewrite <- fmap_S_seq, fmap_cons, <- list_fmap_compose.
  rewrite missing_in_cons. cbn [foldr nth]. by rewrite <- IH.
Qed.

Lemma length_fit w (r : list (option string)) : length (Reader.fit w r) = w.
Proof. unfold Reader.fit. rewrite length_take, length_app, length_replicate. lia. Qed.

(** Counting the missing cells column by column or record by record
    gives the same number. *)
Lemma missing_by_columns w recs :
  foldr Z.add 0 ((λ i, missing_in (cells_at w i recs)) <$> seq 0 w)
  = missing_in (concat (Reader.fit w <$> recs)).
Proof.
  induction recs as [|r recs IH].
  - apply sum_of_zeros.
  - rewrite fmap_cons. cbn [concat]. rewrite missing_in_app, <- IH.
    rewrite <- (sum_by_position (Reader.fit w r)), length_fit.
    rewrite <- sum_pointwise. f_equal. apply list_fmap_ext. intros _ i _.
    unfold cells_at. rewrite fmap_cons. by rewrite missing_in_cons.
Qed.

Lemma fmap_by_position {T} (f : string → T) (g : nat → T) (l : list string) :
  (∀ i x, l !! i = Some x → f x = g i) → f <$> l = g <$> seq 0 (length l).
Proof.
  revert g. induction l as [|x l IH]; intros g Hfg; [done|].
  cbn [length seq]. rewrite <- fmap_S_seq, !fmap_cons, <- list_fmap_compose.
  f_equal; [by apply (Hfg 0%nat)|]. apply IH. intros i y Hy. by apply (Hfg (S i)).
Qed.

Lemma missing_cells_scanned n c :
  (0 < n)%nat → NoDup (header c) →
  Analyzer.sum_values (missing_counts (scanned n c)) = missing_in (concat (table c)).
Proof.
  intros Hn Hnd.
  rewrite (sum_values_along (header c)); [|done|apply scanned_keyed].
  unfold table. rewrite <- missing_by_columns. f_equal.
  apply fmap_by_position. intros i col Hi.
  destruct (scanned_column n c col i Hn Hnd Hi) as [-> _]. done.
Qed.

Lemma length_table c :
  length (concat (table c)) = (length (records c) * length (header c))%nat.
Proof.
  unfold table. induction (records c) as [|r recs IH]; [done|].
  rewrite fmap_cons. cbn [concat length]. rewrite length_app, IH, length_fit. lia.
Qed.

(** The counts of a report against the table of the file. *)
Lemma missing_cells_report n fs path sample r c :
  analyze_csv_quality n fs path sample = Ok r →
  fs !! path = Some (Csv c) → NoDup (header c) →
  missing_cells r = missing_in (concat (table c))
  ∧ total_cells r = Z.of_nat (length (concat (table c)))
  ∧ missing_percentage r = Analyzer.percentage (missing_cells r) (total_cells r).
Proof.
  intros Hr Hc Hnd.
  apply analyze_csv_quality_Ok in Hr as (c' & Hc' & Hn & ->).
  assert (c' = c) as -> by congruence. cbn.
  rewrite missing_cells_scanned by (done || lia).
  rewrite total_rows_scanned, length_table by done. split_and!; [done|lia|done].
Qed.

End Table.

(** X3: for a file with distinct labels, missing_cells is the number
    of missing cells of the whole table and never exceeds
    total_cells. *)
Theorem missing_cells_exact n fs path sample r c :
  analyze_csv_quality n fs path sample = Ok r →
  fs !! path = Some (Csv c) → NoDup (header c) →
  missing_cells r = missing_in (concat (table c))
  ∧ 0 ≤ missing_cells r ≤ total_cells r.
Proof.
  intros Hr Hc Hnd.
  destruct (missing_cells_report _ _ _ _ _ _ Hr Hc Hnd) as (-> & -> & _).
  split; [done|]. apply missing_in_bounds.
Qed.

Lemma missing_cells_exact_witness :
  ∃ r, analyze_csv_quality 2 demo_fs "uploads/demo.csv" 10000 = Ok r
    ∧ missing_cells r = missing_in (concat (table demo_file))
    ∧ 0 ≤ missing_cells r ≤ total_cells r.
Proof.
  eexists. split; [vm_compute; reflexivity |].
  eapply (missing_cells_exact 2 demo_fs "uploads/demo.csv" 10000 _ demo_file);
    [vm_compute; reflexivity | reflexivity
    | apply (bool_decide_unpack _); vm_compute; exact I].
Defined.

(** ** Percentages *)

Section Rounding.

(** Rounding to the nearest integer stays between integer bounds. *)
Lemma round_half_even_range (y : Qc) (m : Z) :
  (0 <= y)%Q → (y <= inject_Z m)%Q → 0 ≤ Num.round_half_even y ≤ m.
Proof.
  intros H0 Hm. unfold Num.round_half_even.
  pose proof (Qfloor_le y) as Hfl.
  assert (0 ≤ Qfloor y) as Hf0.
  { rewrite <- (Qfloor_Z 0). by apply Qfloor_resp_le. }
  assert (Qfloor y ≤ m) as Hfm.
  { rewrite <- (Qfloor_Z m). by apply Qfloor_resp_le. }
  assert (Qfloor y = m → (y - Num.of_Z (Qfloor y) < 1 / 2)%Qc) as Htop.
  { intros Heq. unfold Qclt, Qcminus, Qcplus, Qcopp, Q2Qc. cbn [this].
    rewrite !Qred_correct. rewrite Heq in *.
    assert (y == inject_Z m)%Q as -> by (by apply Qle_antisym).
    unfold Qlt, Qplus, Qopp, inject_Z. vm_compute Qcdiv. simpl. lia. }
  destruct (decide _) as [|Hn1]; [lia|].
  assert (Qfloor y ≠ m) by (intros ?; by apply Hn1, Htop).
  destruct (decide _); [lia|]. destruct (Z.even _); lia.
Qed.

Lemma round2_range (x : Qc) :
  (0 <= x)%Q → (x <= inject_Z 100)%Q →
  (0 <= Num.round2 x)%Qc ∧ (Num.round2 x <= Num.of_Z 100)%Qc.
Proof.
  intros H0 H100. unfold Num.round2.
  destruct (round_half_even_range (x * Num.of_Z 100)%Qc 10000) as [Hlo Hhi].
  - unfold Qcmult, Q2Qc. cbn [this]. rewrite Qred_correct.
    apply Qmult_le_0_compat; [done|]. by unfold Qle.
  - unfold Qcmult, Q2Qc. cbn [this]. rewrite Qred_correct.
    change (inject_Z 10000) with (inject_Z 100 * inject_Z 100)%Q.
    apply Qmult_le_compat_r; [done|]. by unfold Qle.
  - set (k := Num.round_half_even _) in *. clearbody k.
    unfold Qcle, Qcdiv, Qcmult, Qcinv, Q2Qc. cbn [this].
    rewrite !Qred_correct.
    unfold Qle, Qmult, Qinv, inject_Z. simpl. lia.
Qed.

(** A percentage of a part of a whole is between 0 and 100. *)
Lemma percentage_range part whole :
  0 ≤ part ≤ whole →
  (0 <= Analyzer.percentage part whole)%Qc
  ∧ (Analyzer.percentage part whole <= Num.of_Z 100)%Qc.
Proof.
  intros Hp. unfold Analyzer.percentage. destruct (decide (0 < whole)) as [Hw|Hw].
  - assert ((Num.of_Z part / Num.of_Z whole * Num.of_Z 100)%Qc
            == (part * 100) # (Z.to_pos whole))%Q as Heq.
    { unfold Qcdiv, Qcmult, Qcinv, Q2Qc. cbn [this]. rewrite !Qred_correct.
      destruct whole as [|w|w]; try lia.
      unfold Qeq, Qmult, Qinv, inject_Z. simpl. lia. }
    apply round2_range; rewrite Heq.
    + unfold Qle. simpl. lia.
    + unfold Qle, inject_Z. simpl. rewrite Z2Pos.id by done. lia.
  - by vm_compute.
Qed.

End Rounding.

(** X4: for a file with distinct labels, missing_percentage and the
    missing_percentage of every column are between 0 and 100 (with the
    float arithmetic taken as exact). *)
Theorem percentages_in_range n fs path sample r c :
  analyze_csv_quality n fs path sample = Ok r →
  fs !! path = Some (Csv c) → NoDup (header c) →
  ((0 <= missing_percentage r)%Qc ∧ (missing_percentage r <= Num.of_Z 100)%Qc)
  ∧ ∀ col p, column_analysis r !! col = Some p →
      (0 <= column_missing_percentage p)%Qc
      ∧ (column_missing_percentage p <= Num.of_Z 100)%Qc.
Proof.
  intros Hr Hc Hnd. split.
  - destruct (missing_cells_report _ _ _ _ _ _ Hr Hc Hnd) as (Hm & Ht & ->).
    apply percentage_range. rewrite Hm, Ht. apply missing_in_bounds.
  - intros col p Hp.
    destruct (column_analysis_lookup _ _ _ _ _ col Hr) as (c' & Hc' & Hcase).
    assert (c' = c) as -> by congruence.
    destruct Hcase as [[_ Hnone]|[Hin _]]; [congruence|].
    apply list_elem_of_lookup_1 in Hin as [i Hi].
    destruct (profile_of_column _ _ _ _ _ _ _ _ _ Hr Hc Hnd Hi Hp) as (_ & _ & -> & ->).
    apply percentage_range, missing_in_bounds.
Qed.

Lemma percentages_in_range_witness :
  ∃ r, analyze_csv_quality_chunked demo_fs "uploads/demo.csv" 10000 = Ok r
    ∧ ((0 <= missing_percentage r)%Qc ∧ (missing_percentage r <= Num.of_Z 100)%Qc)
    ∧ ∀ col p, column_analysis r !! col = Some p →
        (0 <= column_missing_percentage p)%Qc
        ∧ (column_missing_percentage p <= Num.of_Z 100)%Qc.
Proof.
  eexists. split; [vm_compute; reflexivity |].
  eapply (percentages_in_range CHUNK_SIZE demo_fs "uploads/demo.csv" 10000 _ demo_file);
    [vm_compute; reflexivity | reflexivity
    | apply (bool_decide_unpack _); vm_compute; exact I].
Defined.

(** ** The duplicate check and failures *)

(** X6: a negative sample_size does not fail the analysis: reading
    the sample raises, the handler sets the estimate to 0 and the rest
    of the report is computed as usual. *)
Theorem negative_sample_size n fs path sample c :
  (0 < n)%nat → fs !! path = Some (Csv c) → sample < 0 →
  ∃ r, analyze_csv_quality n fs path sample = Ok r
       ∧ duplicate_rows r = 0
       ∧ total_rows r = Z.of_nat (length (records c)).
Proof.
  intros Hn Hc Hneg.
  eexists. split; [|split].
  - apply analyze_csv_quality_Ok. exists c. split_and!; [done|lia|]. cbn. reflexivity.
  - reflexivity.
  - cbn. apply total_rows_scanned. lia.
Qed.

Lemma negative_sample_size_witness :
  ∃ r, analyze_csv_quality CHUNK_SIZE (files people_world) "uploads/people.csv" (-1) = Ok r
       ∧ duplicate_rows r = 0
       ∧ total_rows r = Z.of_nat (length (records people_file)).
Proof.
  apply (negative_sample_size CHUNK_SIZE (files people_world) "uploads/people.csv" (-1)
           people_file);
    [apply (bool_decide_unpack _); vm_compute; exact I | reflexivity | lia].
Defined.

(** X7: with a positive batch size the analysis raises exactly when
    the path holds no parseable CSV file (no file, or a file pandas
    cannot parse), and what it raises has a message that starts with
    'Error analyzing CSV: '. *)
Theorem analysis_fails_without_csv n fs path sample :
  (0 < n)%nat →
  (∃ e, analyze_csv_quality n fs path sample = Raise ("Error analyzing CSV: " ++ e)%string)
  ↔ ∀ c, fs !! path ≠ Some (Csv c).
Proof.
  intros Hn. split.
  - intros [e He] c Hc.
    assert (∃ r, analyze_csv_quality n fs path sample = Ok r) as [r Hr].
    { eexists. apply analyze_csv_quality_Ok. exists c. split_and!; [done|lia|]. cbn.
      reflexivity. }
    congruence.
  - intros Hno. unfold analyze_csv_quality, Analyzer.analyze_with, Reader.read_csv_str,
      Reader.open_csv.
    destruct (fs !! path) as [[size err|c]|] eqn:E; cbn; eauto.
    by destruct (Hno c).
Qed.

Lemma analysis_fails_without_csv_witness :
  (∃ e, analyze_csv_quality 2 demo_fs "uploads/absent.csv" 10000
        = Raise ("Error analyzing CSV: " ++ e)%string)
  ↔ ∀ c, demo_fs !! "uploads/absent.csv" ≠ Some (Csv c).
Proof.
  apply (analysis_fails_without_csv 2 demo_fs "uploads/absent.csv" 10000). lia.
Defined.

(** ** The count of distinct values *)

(** The bound of [unique_values_at_most_300], on the demonstration
    file. *)
Lemma unique_values_at_most_300_witness :
  ∃ r p, analyze_csv_quality_chunked demo_fs "uploads/demo.csv" 10000 = Ok r
    ∧ column_analysis r !! "a" = Some p
    ∧ ∃ k, unique_values p = UCount k ∧ 0 ≤ k ≤ 300.
Proof.
  eexists. eexists. split; [vm_compute; reflexivity |].
  split; [vm_compute; reflexivity |].
  eapply (unique_values_at_most_300 CHUNK_SIZE demo_fs "uploads/demo.csv" 10000 _
            demo_file "a");
    [vm_compute; reflexivity | reflexivity
    | apply (bool_decide_unpack _); vm_compute; exact I
    | vm_compute; reflexivity].
Defined.

Section Distinct.
Import Analyzer.

Lemma existsb_text x seen :
  existsb (value_eqb (VStr x)) (VStr <$> seen) = bool_decide (x ∈ seen).
Proof.
  induction seen as [|y seen IH]; [done|]. rewrite fmap_cons. cbn [existsb].
  rewrite IH. cbn [value_eqb].
  destruct (decide (x = y)) as [->|Hne].
  - rewrite (bool_decide_eq_true_2 (VStr y = VStr y)) by done.
    rewrite (bool_decide_eq_true_2 (y ∈ y :: seen)) by left. done.
  - rewrite (bool_decide_eq_false_2 (VStr x = VStr y)) by congruence. cbn [orb].
    apply bool_decide_ext. rewrite elem_of_cons. tauto.
Qed.

(** [unique] on texts. *)
Lemma unique_acc_text seen l :
  Pd.unique_acc (VStr <$> seen) (VStr <$> l) = VStr <$> first_appearances seen l.
Proof.
  revert seen. induction l as [|x l IH]; intros seen; [done|].
  rewrite fmap_cons. cbn [Pd.unique_acc first_appearances]. rewrite existsb_text.
  destruct (bool_decide (x ∈ seen)); [apply IH|].
  rewrite fmap_cons. f_equal. apply (IH (x :: seen)).
Qed.

Lemma first_appearances_elem seen l x :
  x ∈ first_appearances seen l ↔ x ∈ l ∧ x ∉ seen.
Proof.
  revert seen. induction l as [|y l IH]; intros seen; cbn [first_appearances].
  - rewrite elem_of_nil. tauto.
  - destruct (bool_decide (y ∈ seen)) eqn:E.
    + apply bool_decide_eq_true in E. rewrite IH, elem_of_cons. split.
      * tauto.
      * intros [[->|Hin] Hseen]; tauto.
    + apply bool_decide_eq_false in E. rewrite !elem_of_cons, IH, elem_of_cons. split.
      * intros [->|[Hin Hseen]]; tauto.
      * intros [[->|Hin] Hseen]; [tauto|].
        destruct (decide (x = y)); tauto.
Qed.

Lemma first_appearances_NoDup seen l : NoDup (first_appearances seen l).
Proof.
  revert seen. induction l as [|y l IH]; intros seen; cbn [first_appearances].
  - constructor.
  - destruct (bool_decide (y ∈ seen)); [apply IH|].
    constructor; [|apply IH]. rewrite first_appearances_elem, elem_of_cons. tauto.
Qed.

(** As many first appearances as distinct texts. *)
Lemma length_first_appearances l :
  length (first_appearances [] l) = length (remove_dups l).
Proof.
  apply Permutation_length, NoDup_Permutation.
  - apply first_appearances_NoDup.
  - apply NoDup_remove_dups.
  - intros x. rewrite first_appearances_elem, elem_of_remove_dups, elem_of_nil. tauto.
Qed.

(** Distinct texts are all added to the tracker. *)
Lemma add_texts (seen vals : list string) :
  NoDup (seen ++ vals) →
  foldl (λ t val,
           let val_safe := safe_convert_value val in
           if bool_decide (val_safe ∈ t) then t else t ++ [val_safe])
        (JStr <$> seen) (VStr <$> vals)
  = JStr <$> (seen ++ vals).
Proof.
  revert seen. induction vals as [|x vals IH]; intros seen Hnd.
  - by rewrite app_nil_r.
  - rewrite fmap_cons. cbn [foldl]. cbn [safe_convert_value isna].
    rewrite bool_decide_eq_false_2.
    + change [JStr x] with (JStr <$> [x]). rewrite <- fmap_app.
      rewrite IH by (by rewrite <- app_assoc). by rewrite <- app_assoc.
    + intros (y & [= <-] & Hy)%list_elem_of_fmap.
      apply NoDup_app in Hnd as (_ & Hdisj & _). apply (Hdisj x Hy). left.
Qed.

Lemma add_uniques_texts l :
  add_uniques [] (Pd.unique (VStr <$> l)) = JStr <$> take 100 (first_appearances [] l).
Proof.
  unfold add_uniques, Pd.unique.
  change (Pd.unique_acc [] (VStr <$> l)) with (Pd.unique_acc (VStr <$> []) (VStr <$> l)).
  rewrite (unique_acc_text [] l), <- fmap_take.
  apply (add_texts [] (take 100 (first_appearances [] l))).
  cbn [app]. eapply sublist_NoDup; [apply first_appearances_NoDup|apply sublist_take].
Qed.

(** A file that fits in one batch is read as one batch. *)
Lemma batches_one {T} n (l : list T) :
  (length l ≤ n)%nat → Reader.batches n l = [l].
Proof.
  intros Hn. unfold Reader.batches. destruct l as [|x l]; [done|].
  cbn [length Reader.slices]. rewrite take_ge, drop_ge by done. by destruct (length l).
Qed.

Lemma scanned_one_batch n c col i :
  NoDup (header c) → (length (records c) ≤ n)%nat → header c !! i = Some col →
  unique_trackers (scanned n c) !! col
  = Some (JStr <$> take 100 (first_appearances [] (omap id (file_column c i)))).
Proof.
  intros Hnd Hn Hi. unfold scanned. rewrite batches_one by done.
  cbn [fmap list_fmap scan_chunks].
  assert (col ∈ header c) as Hin by (by eapply list_elem_of_lookup_2).
  destruct (scan_chunk_column (header c) 0 (Reader.frame_of_text (header c) (records c))
              (scan_start (header c)) col Hnd Hin) as (_ & -> & _).
  destruct (getitem_text (header c) (records c) col i (index_of_lookup _ _ _ Hnd Hi))
    as [d Hget].
  unfold track_uniques. cbn [scan_start unique_trackers].
  rewrite lookup_total_alt, lookup_dict_from_keys, decide_True by done.
  change (default inhabitant (Some (@nil json))) with (@nil json).
  change ((0 <? 3)%nat && (length (@nil json) <? 1000)%nat) with true. cbv iota.
  rewrite Hget, lookup_insert_eq.
  cbn [s_values]. by rewrite dropna_text, add_uniques_texts.
Qed.

End Distinct.

(** X9: for a file with distinct labels that is read in one batch (at
    most [n] records, 10000 in the code), unique_values is the number
    of distinct texts of the column that are not missing, capped at
    100. *)
Theorem unique_values_one_batch n fs path sample r c i col p :
  analyze_csv_quality n fs path sample = Ok r →
  fs !! path = Some (Csv c) → NoDup (header c) →
  (length (records c) ≤ n)%nat →
  header c !! i = Some col → column_analysis r !! col = Some p →
  unique_values p
  = UCount (Z.of_nat (length (remove_dups (omap id (file_column c i))) `min` 100)).
Proof.
  intros Hr Hc Hnd Hn Hi Hp.
  destruct (column_analysis_lookup _ _ _ _ _ col Hr) as (c' & Hc' & Hcase).
  assert (c' = c) as -> by congruence.
  destruct Hcase as [[Hnot _]|(_ & tracker & missing & vals & Ht & Hm & Hs & Hprof)].
  { destruct Hnot. by eapply list_elem_of_lookup_2. }
  rewrite Hp in Hprof. injection Hprof as ->.
  unfold Analyzer.profile_column. rewrite Ht, Hm, Hs. cbn [unique_values].
  rewrite (scanned_one_batch n c col i Hnd Hn Hi) in Ht. injection Ht as <-.
  rewrite length_fmap, length_take, length_first_appearances.
  rewrite decide_True by lia. f_equal. lia.
Qed.

Lemma unique_values_one_batch_witness :
  let fs := files people_world in
  ∃ r p, analyze_csv_quality 5 fs "uploads/people.csv" 10000 = Ok r
    ∧ column_analysis r !! "First Name" = Some p
    ∧ unique_values p
      = UCount (Z.of_nat
                  (length (remove_dups (omap id (file_column people_file 0))) `min` 100)).
Proof.
  intros fs. eexists. eexists. split; [vm_compute; reflexivity |].
  split; [vm_compute; reflexivity |].
  eapply (unique_values_one_batch 5 fs "uploads/people.csv" 10000 _ people_file 0
            "First Name");
    [vm_compute; reflexivity | reflexivity
    | apply (bool_decide_unpack _); vm_compute; exact I
    | simpl; lia | reflexivity | vm_compute; reflexivity].
Defined.

(** ** Upload names and output paths *)

Section Names.

Lemma append_cons c s1 s2 : (String c s1 ++ s2)%string = String c (s1 ++ s2)%string.
Proof. reflexivity. Qed.

Lemma append_nil s : (EmptyString ++ s)%string = s.
Proof. reflexivity. Qed.

Lemma append_assoc s1 s2 s3 : (s1 ++ (s2 ++ s3))%string = ((s1 ++ s2) ++ s3)%string.
Proof. induction s1 as [|c s1 IH]; [done|]. by rewrite !append_cons, IH. Qed.

Lemma has_dot_app s1 s2 : has_dot (s1 ++ s2)%string = has_dot s1 || has_dot s2.
Proof.
  induction s1 as [|c s1 IH]; [done|].
  rewrite append_cons. cbn [has_dot]. rewrite IH. by rewrite orb_assoc.
Qed.

Lemma after_last_dot_app stem ext :
  has_dot ext = false → after_last_dot (stem ++ "." ++ ext)%string = ext.
Proof.
  intros Hext. induction stem as [|c stem IH].
  - rewrite append_nil, append_cons, append_nil. cbn [after_last_dot]. by rewrite Hext.
  - rewrite append_cons. cbn [after_last_dot].
    rewrite has_dot_app, append_cons. cbn [has_dot]. by rewrite Ascii.eqb_refl, orb_true_r.
Qed.

Lemma after_last_dot_split s :
  has_dot s = true →
  ∃ stem, s = (stem ++ "." ++ after_last_dot s)%string ∧ has_dot (after_last_dot s) = false.
Proof.
  induction s as [|c s IH]; simpl; [done|].
  destruct (has_dot s) eqn:Hs.
  - intros _. destruct IH as (stem & Heq & Hno); [done|].
    exists (String c stem). rewrite append_cons. by rewrite <- Heq.
  - rewrite orb_false_r. intros ->%Ascii.eqb_eq. by exists EmptyString.
Qed.

(** A name whose last extension is [csv] in any letter case is
    accepted. *)
Lemma allowed_file_extension stem ext :
  has_dot ext = false → PyStr.lower ext = "csv" →
  allowed_file (stem ++ "." ++ ext) = true.
Proof.
  intros Hno Hlow. unfold allowed_file, ALLOWED_EXTENSIONS.
  rewrite has_dot_app, after_last_dot_app by done. rewrite append_cons. cbn [has_dot].
  rewrite Ascii.eqb_refl, orb_true_r. cbn [andb].
  apply bool_decide_eq_true. rewrite Hlow. by apply list_elem_of_singleton.
Qed.

(** A text without a dot has no [.csv] to replace. *)
Lemma replace_from_no_dot new s :
  has_dot s = false → PyStr.replace_from ".csv" new s 0 = s.
Proof.
  induction s as [|c s IH]; [done|]. cbn [has_dot]. intros [Hc Hs]%orb_false_iff.
  cbn [PyStr.replace_from PyStr.starts_with]. rewrite Ascii.eqb_sym, Hc. by rewrite IH.
Qed.

Lemma output_of_stem stem :
  has_dot stem = false →
  output_of (stem ++ ".csv") = (stem ++ "_processed.csv")%string.
Proof.
  intros Hstem. unfold output_of, PyStr.replace.
  induction stem as [|c stem IH]; [done|].
  simpl in Hstem. apply orb_false_iff in Hstem as [Hc Hs].
  rewrite append_cons. cbn [PyStr.replace_from PyStr.starts_with].
  rewrite Ascii.eqb_sym, Hc, append_cons. f_equal. by apply IH.
Qed.

Lemma output_of_other_extension stem ext :
  has_dot stem = false → has_dot ext = false → PyStr.starts_with "csv" ext = false →
  output_of (stem ++ "." ++ ext) = (stem ++ "." ++ ext)%string.
Proof.
  intros Hstem Hext Hcsv. unfold output_of, PyStr.replace.
  induction stem as [|c stem IH].
  - rewrite append_nil, append_cons, append_nil.
    cbn [PyStr.replace_from]. change (PyStr.starts_with ".csv" (String "." ext))
      with (PyStr.starts_with "csv" ext). rewrite Hcsv. f_equal.
    by apply replace_from_no_dot.
  - simpl in Hstem. apply orb_false_iff in Hstem as [Hc Hs].
    rewrite append_cons. cbn [PyStr.replace_from PyStr.starts_with].
    rewrite Ascii.eqb_sym, Hc. f_equal. by apply IH.
Qed.

Lemma starts_with_prefix p s : PyStr.starts_with p s = true ↔ ∃ rest, s = (p ++ rest)%string.
Proof.
  revert s. induction p as [|a p IH]; intros s; simpl.
  - split; [eauto|done].
  - destruct s as [|b s].
    + split; [done|]. by intros [? ?].
    + destruct (Ascii.eqb a b) eqn:E.
      * apply Ascii.eqb_eq in E as ->. rewrite IH. split.
        -- intros [rest ->]. eauto.
        -- intros [rest [= ->]]. eauto.
      * split; [done|]. intros [rest [= -> _]]. by rewrite Ascii.eqb_refl in E.
Qed.

Lemma lower_app s1 s2 :
  PyStr.lower (s1 ++ s2)%string = (PyStr.lower s1 ++ PyStr.lower s2)%string.
Proof. induction s1 as [|c s1 IH]; [done|]. rewrite !append_cons. cbn. by rewrite IH. Qed.

(** An extension that is [csv] up to letter case, and not [csv],
    does not start with [csv]. *)
Lemma other_case_no_prefix ext :
  PyStr.lower ext = "csv" → ext ≠ "csv" → PyStr.starts_with "csv" ext = false.
Proof.
  intros Hlow Hne. destruct (PyStr.starts_with "csv" ext) eqn:E; [|done].
  apply starts_with_prefix in E as [rest ->]. destruct Hne.
  rewrite lower_app in Hlow. destruct rest as [|c rest]; [done|]. discriminate Hlow.
Qed.

End Names.

(** X10: the names [allowed_file] accepts are those that end with a
    dot and the letters c, s, v in any letter case; a name without a
    dot is refused. *)
Theorem allowed_file_spec filename :
  allowed_file filename = true
  ↔ ∃ stem ext, filename = (stem ++ "." ++ ext)%string
                ∧ has_dot ext = false ∧ PyStr.lower ext = "csv".
Proof.
  split.
  - unfold allowed_file, ALLOWED_EXTENSIONS.
    intros [Hdot Hext%bool_decide_eq_true]%andb_true_iff.
    apply list_elem_of_singleton in Hext.
    destruct (after_last_dot_split _ Hdot) as (stem & Heq & Hno). eauto.
  - intros (stem & ext & -> & Hno & Hlow). by apply allowed_file_extension.
Qed.

(** X11: for a name with one dot and the extension csv in small
    letters, the output path puts _processed before the extension; it
    differs from the input path and is itself an accepted name. *)
Theorem output_of_csv_name stem :
  has_dot stem = false →
  output_of (stem ++ ".csv") = (stem ++ "_processed.csv")%string
  ∧ output_of (stem ++ ".csv") ≠ (stem ++ ".csv")%string
  ∧ allowed_file (stem ++ ".csv") = true
  ∧ allowed_file (output_of (stem ++ ".csv")) = true.
Proof.
  intros Hstem. rewrite output_of_stem by done. split_and!.
  - done.
  - by intros Heq%(inj (String.append stem)).
  - by apply (allowed_file_extension stem "csv").
  - change "_processed.csv" with ("_processed" ++ "." ++ "csv")%string.
    rewrite (append_assoc stem "_processed" ("." ++ "csv")).
    by apply (allowed_file_extension (stem ++ "_processed") "csv").
Qed.

Lemma output_of_csv_name_witness :
  output_of ("uploads/people" ++ ".csv") = ("uploads/people" ++ "_processed.csv")%string
  ∧ output_of ("uploads/people" ++ ".csv") ≠ ("uploads/people" ++ ".csv")%string
  ∧ allowed_file ("uploads/people" ++ ".csv") = true
  ∧ allowed_file (output_of ("uploads/people" ++ ".csv")) = true.
Proof. apply (output_of_csv_name "uploads/people"). reflexivity. Defined.

(** X12: a name whose extension is csv with a capital letter in it
    (CSV, Csv, ...) is accepted for upload, but the output path of the
    transform is the input path itself: replace looks for .csv in
    small letters. *)
Theorem other_case_extension_collides stem ext :
  has_dot stem = false → has_dot ext = false →
  PyStr.lower ext = "csv" → ext ≠ "csv" →
  allowed_file (stem ++ "." ++ ext) = true
  ∧ output_of (stem ++ "." ++ ext) = (stem ++ "." ++ ext)%string.
Proof.
  intros Hstem Hext Hlow Hne. split.
  - by apply allowed_file_extension.
  - apply output_of_other_extension; [done..|]. by apply other_case_no_prefix.
Qed.

Lemma other_case_extension_collides_witness :
  allowed_file ("uploads/PEOPLE" ++ "." ++ "CSV") = true
  ∧ output_of ("uploads/PEOPLE" ++ "." ++ "CSV") = ("uploads/PEOPLE" ++ "." ++ "CSV")%string.
Proof.
  apply (other_case_extension_collides "uploads/PEOPLE" "CSV");
    [reflexivity | reflexivity | reflexivity | discriminate].
Defined.

(** ** The per-cell options, column by column *)

Section Columns.
Context `{PandasKernels}.

Lemma column_values_set_column i d vals df j :
  Forall (λ r, (i < length r)%nat) (rows df) → length vals = length (rows df) →
  column_values j (set_column i d vals df)
  = if decide (j = i) then vals else column_values j df.
Proof.
  intros Hwide Hlen. apply list_eq. intros k.
  unfold column_values, set_column. cbn [rows].
  rewrite list_lookup_fmap, list_lookup_imap.
  destruct (rows df !! k) as [r|] eqn:Hr; cbn.
  - assert (i < length r)%nat as Hi.
    { rewrite Forall_forall in Hwide. apply Hwide. by eapply list_elem_of_lookup_2. }
    destruct (decide (j = i)) as [->|Hne].
    + rewrite nth_lookup, list_lookup_insert_eq by done. cbn.
      apply lookup_lt_Some in Hr. rewrite <- Hlen in Hr.
      destruct (lookup_lt_is_Some_2 vals k Hr) as [v Hv].
      by rewrite Hv, (nth_lookup_Some vals k NaN v Hv).
    + rewrite list_lookup_fmap, Hr. cbn. f_equal.
      by rewrite !nth_lookup, list_lookup_insert_ne.
  - apply lookup_ge_None in Hr. destruct (decide (j = i)).
    + symmetry. apply lookup_ge_None. lia.
    + rewrite list_lookup_fmap. symmetry.
      by rewrite (proj2 (lookup_ge_None (rows df) k) Hr).
Qed.

Lemma set_column_well_formed i d vals df :
  well_formed df → well_formed (set_column i d vals df).
Proof.
  intros (Hnd & Hd & Hr). split_and!; cbn.
  - done.
  - by rewrite length_insert.
  - apply Forall_forall. intros r' Hr'.
    apply list_elem_of_lookup_1 in Hr' as [k Hk].
    rewrite list_lookup_imap in Hk.
    destruct (rows df !! k) as [r|] eqn:E; [|done]. injection Hk as <-.
    rewrite length_insert. rewrite Forall_forall in Hr. apply Hr.
    by eapply list_elem_of_lookup_2.
Qed.

Lemma set_column_same_dtype i vals df :
  dtypes (set_column i (column_dtype i df) vals df) = dtypes df.
Proof.
  cbn. apply list_insert_id'. intros Hi. unfold column_dtype.
  destruct (lookup_lt_is_Some_2 (dtypes df) i Hi) as [d Hd].
  by rewrite Hd, (nth_lookup_Some (dtypes df) i object_ d Hd).
Qed.

(** The loop of [update_columns] over the positions [ps]. *)
Lemma update_positions (sel : dtype → bool) (f : list value → list value)
    (ps : list nat) (df : DataFrame) :
  (∀ vals, length (f vals) = length vals) →
  NoDup ps → Forall (λ i, (i < length (columns df))%nat) ps → well_formed df →
  let df' := foldl (λ (df : DataFrame) (i : nat),
                      if sel (column_dtype i df)
                      then set_column i (column_dtype i df) (f (column_values i df)) df
                      else df) df ps in
  well_formed df' ∧ dtypes df' = dtypes df ∧ columns df' = columns df
  ∧ ∀ j, column_values j df'
         = if sel (column_dtype j df) && bool_decide (j ∈ ps)
           then f (column_values j df) else column_values j df.
Proof.
  intros Hf Hnd. revert df. induction Hnd as [|i ps Hi Hnd IH]; intros df Hlt Hwf.
  - cbn. split_and!; try done. intros j. by rewrite andb_false_r.
  - cbn [foldl]. apply Forall_cons in Hlt as [Hi_lt Hlt].
    set (df1 := if sel (column_dtype i df)
                then set_column i (column_dtype i df) (f (column_values i df)) df
                else df).
    assert (well_formed df1) as Hwf1.
    { unfold df1. destruct (sel _); [by apply set_column_well_formed|done]. }
    assert (dtypes df1 = dtypes df) as Hd1.
    { unfold df1. destruct (sel _); [apply set_column_same_dtype|done]. }
    assert (columns df1 = columns df) as Hc1.
    { unfold df1. by destruct (sel _). }
    assert (∀ j, column_values j df1
                 = if sel (column_dtype j df) && bool_decide (j = i)
                   then f (column_values j df) else column_values j df) as Hv1.
    { intros j. unfold df1. destruct (decide (j = i)) as [->|Hne].
      - rewrite bool_decide_eq_true_2, andb_true_r by done.
        destruct (sel _); [|done]. rewrite column_values_set_column.
        + by rewrite decide_True.
        + destruct Hwf as (_ & _ & Hrows). eapply Forall_impl; [exact Hrows|].
          intros r Hr. cbn in Hr. lia.
        + rewrite Hf. unfold column_values. by rewrite length_fmap.
      - rewrite bool_decide_eq_false_2, andb_false_r by done.
        destruct (sel (column_dtype i df)); [|done]. rewrite column_values_set_column.
        + by rewrite decide_False.
        + destruct Hwf as (_ & _ & Hrows). eapply Forall_impl; [exact Hrows|].
          intros r Hr. cbn in Hr. lia.
        + rewrite Hf. unfold column_values. by rewrite length_fmap. }
    destruct (IH df1) as (Hwf' & Hd' & Hc' & Hv'); [by rewrite Hc1|done|].
    split_and!; [done|congruence|congruence|].
    intros j. rewrite Hv', Hv1. unfold column_dtype. rewrite Hd1.
    destruct (decide (j = i)) as [->|Hne].
    + rewrite (bool_decide_eq_false_2 (i ∈ ps)) by done.
      rewrite (bool_decide_eq_true_2 (i ∈ i :: ps)) by left.
      rewrite (bool_decide_eq_true_2 (i = i)) by done. by rewrite andb_false_r.
    + rewrite (bool_decide_eq_false_2 (j = i)) by done. rewrite andb_false_r.
      destruct (decide (j ∈ ps)).
      * rewrite !bool_decide_eq_true_2; [done|by right|done].
      * rewrite !bool_decide_eq_false_2; [done| |done]. by intros [?|?]%elem_of_cons.
Qed.

(** What [update_columns] leaves in the column at position [j]. *)
Lemma update_columns_spec sel f df :
  (∀ vals, length (f vals) = length vals) → well_formed df →
  well_formed (update_columns sel f df)
  ∧ dtypes (update_columns sel f df) = dtypes df
  ∧ columns (update_columns sel f df) = columns df
  ∧ ∀ j, (j < length (columns df))%nat →
         column_values j (update_columns sel f df)
         = if sel (column_dtype j df) then f (column_values j df) else column_values j df.
Proof.
  intros Hf Hwf.
  destruct (update_positions sel f (seq 0 (length (columns df))) df Hf)
    as (Hwf' & Hd & Hc & Hv); [apply NoDup_seq| |done|].
  { apply Forall_forall. intros i Hi%elem_of_seq. lia. }
  split_and!; try done. intros j Hj. unfold update_columns. rewrite Hv.
  rewrite bool_decide_eq_true_2, andb_true_r; [done|]. apply elem_of_seq. lia.
Qed.

Lemma length_fillna x vals : length (fillna x vals) = length vals.
Proof. unfold fillna. by rewrite length_fmap. Qed.

Lemma length_fill_mode vals : length (fill_mode vals) = length vals.
Proof.
  unfold fill_mode. destruct (existsb isna vals); [|done].
  destruct (mode vals); [done|apply length_fillna].
Qed.




(** The frames read from a file with distinct labels are well
    formed. *)
Lemma frame_of_records_well_formed hdr recs :
  NoDup hdr → well_formed (frame_of_records hdr recs).
Proof.
  intros Hnd. split_and!; cbn.
  - done.
  - by rewrite length_fmap, length_seq.
  - apply Forall_forall. intros r Hr. apply list_elem_of_fmap in Hr as (r0 & -> & Hr0).
    apply list_elem_of_fmap in Hr0 as (r1 & -> & _).
    rewrite length_zip_with, length_fmap, length_seq.
    unfold Reader.fit. rewrite length_take, length_app, length_replicate. lia.
Qed.

End Columns.

Section Strip.
Import PyStr.

Lemma lstrip_starts_tight s : starts_tight (lstrip s).
Proof.
  induction s as [|c s IH]; cbn [lstrip]; [done|].
  destruct (is_space c) eqn:E; [done|]. exact E.
Qed.

Lemma lstrip_tight s : starts_tight s → lstrip s = s.
Proof. destruct s as [|c s]; [done|]. cbn. by intros ->. Qed.

Lemma rstrip_cons c s :
  rstrip (String c s)
  = match rstrip s with
    | EmptyString => if is_space c then EmptyString else String c EmptyString
    | r => String c r
    end.
Proof. reflexivity. Qed.

Lemma rstrip_starts_tight s : starts_tight s → starts_tight (rstrip s).
Proof.
  destruct s as [|c s]; [done|]. rewrite rstrip_cons. cbn [starts_tight]. intros Hc.
  destruct (rstrip s); [by rewrite Hc|done].
Qed.

Lemma rstrip_rstrip s : rstrip (rstrip s) = rstrip s.
Proof.
  induction s as [|c s IH]; [done|]. rewrite rstrip_cons.
  destruct (rstrip s) as [|c' r] eqn:E.
  - destruct (is_space c) eqn:Hc; [done|]. cbn [rstrip]. by rewrite Hc.
  - by rewrite rstrip_cons, IH.
Qed.


End Strip.

Section Options.
Context `{PandasKernels}.


Lemma lookup_fillna x vals k v :
  vals !! k = Some v → isna v = false → fillna x vals !! k = Some v.
Proof. intros Hv Hna. unfold fillna. by rewrite list_lookup_fmap, Hv; cbn; rewrite Hna. Qed.

Lemma lookup_fill_mode vals k v :
  vals !! k = Some v → isna v = false → fill_mode vals !! k = Some v.
Proof.
  intros Hv Hna. unfold fill_mode. destruct (existsb isna vals); [|done].
  destruct (mode vals); [done|]. by apply lookup_fillna.
Qed.

End Options.



(** X14: the fill options (and no option) change missing cells only:
    a cell that is not missing keeps its value and its place. *)
Theorem fill_keeps_present_cells `{PandasKernels} df opts j k v :
  well_formed df → (j < length (columns df))%nat →
  handle_missing opts ≠ Some "drop" →
  column_values j df !! k = Some v → isna v = false →
  column_values j (handle_missing_values df opts) !! k = Some v.
Proof.
  intros Hwf Hj Hdrop Hv Hna. unfold handle_missing_values.
  rewrite decide_False by done.
  repeat case_decide; try done.
  - destruct (update_columns_spec is_number (fill_with mean) df) as (_ & _ & _ & Hcol);
      [intros; apply length_fillna|done|].
    rewrite Hcol by done. destruct (is_number _); [by apply lookup_fillna|done].
  - destruct (update_columns_spec is_number (fill_with median) df) as (_ & _ & _ & Hcol);
      [intros; apply length_fillna|done|].
    rewrite Hcol by done. destruct (is_number _); [by apply lookup_fillna|done].
  - destruct (update_columns_spec (λ _, true) fill_mode df) as (_ & _ & _ & Hcol);
      [apply length_fill_mode|done|].
    rewrite Hcol by done. by apply lookup_fill_mode.
Qed.

Lemma fill_keeps_present_cells_witness :
  column_values 0 (handle_missing_values (H := text_kernels) padded_frame
                     (only_handle_missing "fill_mode")) !! 0%nat
  = Some (VStr "  Ada ").
Proof.
  apply (fill_keeps_present_cells (H := text_kernels) padded_frame
           (only_handle_missing "fill_mode") 0 0 (VStr "  Ada "));
    [split_and!;
       [apply (bool_decide_unpack _); vm_compute; exact I | reflexivity
       | repeat constructor]
    | simpl; lia | discriminate | reflexivity | reflexivity].
Defined.

(** X15: on a frame with distinct labels, with handle_missing =
    'drop' the rows that go are the rows with a missing cell, and no
    other: what is left is the complete rows in their order, and that
    many rows come out whatever the other options. *)
Theorem drop_removes_incomplete_rows `{PandasKernels} df opts :
  well_formed df → handle_missing opts = Some "drop" →
  rows (handle_missing_values df opts) = filter complete (rows df)
  ∧ Forall complete (rows (handle_missing_values df opts))
  ∧ Pd.len (apply_preprocessing_options df opts)
    = Z.of_nat (length (filter complete (rows df))).
Proof.
  intros _ Hdrop.
  assert (handle_missing_values df opts = Pd.dropna_rows df) as Hdf.
  { unfold handle_missing_values. by rewrite decide_True. }
  split_and!.
  - by rewrite Hdf.
  - rewrite Hdf. cbn. apply Forall_forall. by intros r [? _]%list_elem_of_filter.
  - unfold Pd.len, apply_preprocessing_options. rewrite Hdf.
    destruct (convert_types opts); [rewrite (proj2 (convert_columns_shape _)) |];
      (destruct (trim_whitespace opts); [rewrite (proj2 (update_columns_shape _ _ _)) |]);
      done.
Qed.

Lemma drop_removes_incomplete_rows_witness :
  let opts := only_handle_missing "drop" in
  rows (handle_missing_values (H := text_kernels) padded_frame opts)
  = filter complete (rows padded_frame)
  ∧ Forall complete (rows (handle_missing_values (H := text_kernels) padded_frame opts))
  ∧ Pd.len (apply_preprocessing_options (H := text_kernels) padded_frame opts)
    = Z.of_nat (length (filter complete (rows padded_frame))).
Proof.
  intros opts.
  apply (drop_removes_incomplete_rows (H := text_kernels) padded_frame opts);
    [split_and!;
       [apply (bool_decide_unpack _); vm_compute; exact I | reflexivity
       | repeat constructor]
    | reflexivity].
Defined.

(** X16: on a frame with distinct labels, no combination of options
    changes the labels or adds a row, and only handle_missing = 'drop'
    removes rows. *)
Theorem options_keep_labels_and_rows `{PandasKernels} df opts :
  well_formed df →
  columns (apply_preprocessing_options df opts) = columns df
  ∧ Pd.len (apply_preprocessing_options df opts) ≤ Pd.len df
  ∧ (handle_missing opts ≠ Some "drop" →
     Pd.len (apply_preprocessing_options df opts) = Pd.len df).
Proof.
  intros _. split_and!.
  - apply apply_preprocessing_options_columns.
  - apply apply_preprocessing_options_len.
  - apply apply_preprocessing_options_len_keep.
Qed.

Lemma options_keep_labels_and_rows_witness :
  columns (apply_preprocessing_options (H := text_kernels) padded_frame only_trim)
  = columns padded_frame
  ∧ Pd.len (apply_preprocessing_options (H := text_kernels) padded_frame only_trim)
    ≤ Pd.len padded_frame
  ∧ (handle_missing only_trim ≠ Some "drop" →
     Pd.len (apply_preprocessing_options (H := text_kernels) padded_frame only_trim)
     = Pd.len padded_frame).
Proof.
  apply (options_keep_labels_and_rows (H := text_kernels) padded_frame only_trim).
  split_and!;
    [apply (bool_decide_unpack _); vm_compute; exact I | reflexivity | repeat constructor].
Defined.

(** ** Standardized labels *)

Section Standardize.
Import PyStr.

Lemma standard_char_spec c :
  standard_char c ≠ " "%char
  ∧ is_upper (standard_char c) = false
  ∧ standard_char (standard_char c) = standard_char c
  ∧ (is_space c = false → is_space (standard_char c) = false).
Proof. destruct c as [[] [] [] [] [] [] [] []]; vm_compute; split_and!; congruence. Qed.

(** [lower] and then [replace(' ', '_')], character by character. *)
Lemma replace_space s :
  replace " " "_" (lower s) = map_chars standard_char s.
Proof.
  unfold replace. induction s as [|c s IH]; [done|].
  cbn [lower replace_from starts_with map_chars String.length Nat.sub].
  rewrite IH. unfold standard_char. rewrite (Ascii.eqb_sym " " (lower_char c)).
  by destruct (Ascii.eqb (lower_char c) " ").
Qed.

Lemma standardize_map col : standardize col = map_chars standard_char (strip col).
Proof. apply replace_space. Qed.

Lemma map_chars_twice s :
  map_chars standard_char (map_chars standard_char s) = map_chars standard_char s.
Proof.
  induction s as [|c s IH]; [done|]. cbn [map_chars]. rewrite IH.
  by rewrite (proj1 (proj2 (proj2 (standard_char_spec c)))).
Qed.

Lemma map_chars_starts_tight s :
  starts_tight s → starts_tight (map_chars standard_char s).
Proof. destruct s as [|c s]; [done|]. cbn. apply standard_char_spec. Qed.

Lemma map_chars_rstrip s :
  rstrip s = s → rstrip (map_chars standard_char s) = map_chars standard_char s.
Proof.
  induction s as [|c s IH]; [done|]. rewrite rstrip_cons. cbn [map_chars].
  rewrite rstrip_cons. destruct (rstrip s) as [|c' r] eqn:E.
  - destruct (is_space c) eqn:Hc; [done|]. intros [= <-]. cbn [map_chars rstrip].
    by rewrite (proj2 (proj2 (proj2 (standard_char_spec c))) Hc).
  - intros [= Hs]. rewrite <- Hs in *. rewrite IH by done. by cbn [map_chars].
Qed.

Lemma strip_standard s :
  strip (map_chars standard_char (strip s)) = map_chars standard_char (strip s).
Proof.
  unfold strip at 1. rewrite lstrip_tight.
  - apply map_chars_rstrip. unfold strip. apply rstrip_rstrip.
  - apply map_chars_starts_tight. unfold strip.
    apply rstrip_starts_tight, lstrip_starts_tight.
Qed.

Lemma chars_map_chars f s :
  list_ascii_of_string (map_chars f s) = f <$> list_ascii_of_string s.
Proof. induction s as [|c s IH]; [done|]. cbn. by rewrite IH. Qed.

End Standardize.

(** X17: a standardized label has no space and no ASCII capital
    letter in it, and standardizing it again changes nothing. *)
Theorem standardize_normal_form col :
  Forall (λ ch, ch ≠ " "%char ∧ is_upper ch = false)
         (list_ascii_of_string (standardize col))
  ∧ standardize (standardize col) = standardize col.
Proof.
  split.
  - rewrite standardize_map, chars_map_chars. apply Forall_fmap, Forall_true.
    intros ch. cbn. split; apply standard_char_spec.
  - rewrite (standardize_map (standardize col)), standardize_map.
    rewrite strip_standard. apply map_chars_twice.
Qed.

(** ** The files a run leaves *)

Section Output.
Context `{PandasKernels}.

Lemma length_csv_records df : length (csv_records df) = length (rows df).
Proof. unfold csv_records. by rewrite length_fmap. Qed.

(** Appending adds the records of the frames, in order. *)
Lemma stream_files_append_records out dfs fs c0 :
  fs !! out = Some (Csv c0) →
  ∃ c1, stream_files out dfs false fs !! out = Some (Csv c1)
        ∧ header c1 = header c0
        ∧ records c1 = records c0 ++ concat (csv_records <$> dfs).
Proof.
  revert fs c0. induction dfs as [|df rest IH]; intros fs c0 Hout.
  - exists c0. by rewrite app_nil_r.
  - cbn [stream_files]. rewrite Hout.
    destruct (IH (<[out := written df mode_a (Some (Csv c0))]> fs)
                 {| file_size := csv_size (header c0) (records c0 ++ csv_records df);
                    header := header c0;
                    records := records c0 ++ csv_records df |})
      as (c1 & Hc1 & Hh & Hr); [apply lookup_insert_eq |].
    exists c1. split_and!; [done|done|].
    rewrite Hr. cbn [records]. rewrite fmap_cons. cbn [concat]. by rewrite app_assoc.
Qed.

(** The output of the loop: the labels of the first frame and the
    records of all the frames. *)
Lemma stream_files_first out df rest fs :
  ∃ c1, stream_files out (df :: rest) true fs !! out = Some (Csv c1)
        ∧ header c1 = columns df
        ∧ records c1 = concat (csv_records <$> (df :: rest)).
Proof.
  cbn [stream_files].
  destruct (stream_files_append_records out rest
              (<[out := written df mode_w (fs !! out)]> fs)
              {| file_size := csv_size (columns df) (csv_records df);
                 header := columns df;
                 records := csv_records df |})
    as (c1 & Hc1 & Hh & Hr); [apply lookup_insert_eq |].
  exists c1. split_and!; done.
Qed.





Lemma len_chunks_of c :
  foldr Z.add 0 (Pd.len <$> chunks_of c) = Z.of_nat (length (records c)).
Proof.
  unfold chunks_of. rewrite <- list_fmap_compose.
  rewrite (list_fmap_ext (Pd.len ∘ frame_of_records (header c))
             (λ b, Z.of_nat (length b)) (Reader.batches CHUNK_SIZE (records c)))
    by (intros; apply len_frame_of_records).
  rewrite <- length_concat_sum. by rewrite batches_concat by apply CHUNK_SIZE_positive.
Qed.

End Output.



(** X19: a run writes to no file but its output file, in both modes
    and when it fails, and it only adds entries to what Redis has
    received; in particular the input file is left as it is when the
    output path differs from the input path. *)
Theorem transform_touches_output_only `{PandasKernels} path opts w p :
  p ≠ output_of path →
  let w' := snd (preprocess_csv_task_chunked path opts w) in
  files w' !! p = files w !! p ∧ redis w `prefix_of` redis w'.
Proof.
  intros Hp. unfold preprocess_csv_task_chunked.
  destruct (files w !! path) as [[size err|c]|] eqn:Hf.
  - destruct (preprocess_body_not_Csv path opts w) as [e ->].
    { intros c. rewrite Hf. congruence. } done.
  - destruct (remove_duplicates opts) eqn:Hd.
    + rewrite (preprocess_body_dedup path opts w c Hf Hd). cbn.
      split; [by rewrite lookup_insert_ne|done].
    + rewrite (preprocess_body_streaming path opts w c Hf Hd). cbn.
      split; [by apply stream_files_other|by apply prefix_app_r].
  - destruct (preprocess_body_not_Csv path opts w) as [e ->].
    { intros c. rewrite Hf. congruence. } done.
Qed.

Lemma transform_touches_output_only_witness :
  let w' := snd (preprocess_csv_task_chunked (H := text_kernels) "uploads/people.csv"
                   only_remove_duplicates people_world) in
  files w' !! "uploads/people.csv" = files people_world !! "uploads/people.csv"
  ∧ redis people_world `prefix_of` redis w'.
Proof.
  apply (transform_touches_output_only (H := text_kernels) "uploads/people.csv"
           only_remove_duplicates people_world "uploads/people.csv").
  intros Heq. vm_compute in Heq. discriminate Heq.
Defined.

(** X20: when the path holds no file, or a file in which pandas meets
    an error before it has read a first batch of rows, the run returns
    an error result with the message of that exception and leaves the
    files and the progress entries as they were: no output file is
    created.  (A file that fails further down, after batches were
    written, is not represented and not covered.) *)
Theorem failed_read_changes_nothing `{PandasKernels} path opts w :
  (∀ c, files w !! path ≠ Some (Csv c)) →
  ∃ e, Reader.open_csv (files w) path = Raise e
    ∧ preprocess_csv_task_chunked path opts w
      = ({| status := "error"; output_path := None; rows_processed := None;
            rows_removed := None; result_columns := None; error := Some e |}, w).
Proof.
  intros Hf. unfold preprocess_csv_task_chunked, preprocess_body.
  destruct (Reader.open_csv (files w) path) as [c|e] eqn:Hopen.
  - destruct (Hf c). unfold Reader.open_csv in Hopen.
    destruct (files w !! path) as [[size err|c']|]; congruence.
  - exists e. split; [done|].
    erewrite bind_run_Raise; [done|]. unfold read_csv, lift. by rewrite Hopen.
Qed.

Lemma failed_read_changes_nothing_witness :
  ∃ e, Reader.open_csv (files people_world) "uploads/absent.csv" = Raise e
    ∧ preprocess_csv_task_chunked (H := text_kernels) "uploads/absent.csv"
        no_options people_world
      = ({| status := "error"; output_path := None; rows_processed := None;
            rows_removed := None; result_columns := None; error := Some e |},
         people_world).
Proof.
  apply (failed_read_changes_nothing (H := text_kernels) "uploads/absent.csv"
           no_options people_world).
  intros c Hc. vm_compute in Hc. discriminate Hc.
Defined.



(** X22: in whole-dataset mode on a CSV file, rows_processed and
    rows_removed add up to the number of records of the file,
    rows_removed is not negative, a file with a record keeps at least
    one row, and the output file holds at most rows_processed records:
    exactly that many unless handle_missing = 'drop' removed rows
    after the count was taken. *)
Theorem whole_dataset_counts `{PandasKernels} path opts w c :
  files w !! path = Some (Csv c) → remove_duplicates opts = true →
  ∃ r w' c' processed_rows removed,
    preprocess_csv_task_chunked path opts w = (r, w')
    ∧ rows_processed r = Some processed_rows ∧ rows_removed r = Some removed
    ∧ files w' !! output_of path = Some (Csv c')
    ∧ processed_rows + removed = Z.of_nat (length (records c))
    ∧ 0 ≤ removed
    ∧ (records c ≠ [] → 1 ≤ processed_rows)
    ∧ Z.of_nat (length (records c')) ≤ processed_rows
    ∧ (handle_missing opts ≠ Some "drop" → Z.of_nat (length (records c')) = processed_rows).
Proof.
  intros Hf Hd. unfold preprocess_csv_task_chunked.
  rewrite (preprocess_body_dedup path opts w c Hf Hd). cbn zeta.
  set (df := frame_of_records (header c) (records c)).
  set (kept := Pd.drop_duplicates df).
  eexists _, _, _, _, _. split; [done|].
  cbn [rows_processed rows_removed files].
  split_and!; [done|done|apply lookup_insert_eq|..]; cbn [records].
  - rewrite <- (len_frame_of_records (header c) (records c)). fold df. lia.
  - pose proof (duplicated_sum_bounds df) as Hb. rewrite duplicated_sum_removed in Hb.
    fold kept in Hb. lia.
  - intros Hne. unfold kept, Pd.len, Pd.drop_duplicates, df. cbn [rows frame_of_records].
    destruct (records c) as [|r0 recs]; [done|]. rewrite fmap_cons, fmap_cons.
    cbn [Pd.drop_duplicates_acc existsb length]. lia.
  - rewrite length_csv_records. apply (apply_preprocessing_options_len kept opts).
  - intros Hkeep. rewrite length_csv_records.
    apply (apply_preprocessing_options_len_keep kept opts Hkeep).
Qed.

Lemma whole_dataset_counts_witness :
  let opts := {| handle_missing := Some "drop"; trim_whitespace := false;
                 convert_types := false; standardize_columns := false;
                 remove_duplicates := true |} in
  ∃ r w' c' processed_rows removed,
    preprocess_csv_task_chunked (H := text_kernels) "uploads/people.csv" opts people_world
    = (r, w')
    ∧ rows_processed r = Some processed_rows ∧ rows_removed r = Some removed
    ∧ files w' !! output_of "uploads/people.csv" = Some (Csv c')
    ∧ processed_rows + removed = Z.of_nat (length (records people_file))
    ∧ 0 ≤ removed
    ∧ (records people_file ≠ [] → 1 ≤ processed_rows)
    ∧ Z.of_nat (length (records c')) ≤ processed_rows
    ∧ (handle_missing opts ≠ Some "drop" → Z.of_nat (length (records c')) = processed_rows).
Proof.
  intros opts.
  apply (whole_dataset_counts (H := text_kernels) "uploads/people.csv" opts
           people_world people_file); reflexivity.
Defined.

(** ** The tracker, batch by batch *)

Section Tracked.
Import Analyzer.

(** [first_appearances] looks at [seen] through membership only. *)
Lemma first_appearances_ext seen seen' l :
  (∀ x, x ∈ seen ↔ x ∈ seen') → first_appearances seen l = first_appearances seen' l.
Proof.
  revert seen seen'. induction l as [|y l IH]; intros seen seen' Hext; [done|].
  cbn [first_appearances]. rewrite (bool_decide_ext _ _ (Hext y)).
  destruct (bool_decide (y ∈ seen')); [by apply IH|].
  f_equal. apply IH. intros x. rewrite !elem_of_cons, Hext. done.
Qed.

(** The loop of [add_uniques] on texts: the texts that are new to the
    tracker are added at its end. *)
Lemma add_new_texts (seen vals : list string) :
  foldl (λ t val,
           let val_safe := safe_convert_value val in
           if bool_decide (val_safe ∈ t) then t else t ++ [val_safe])
        (JStr <$> seen) (VStr <$> vals)
  = JStr <$> (seen ++ first_appearances seen vals).
Proof.
  revert seen. induction vals as [|x vals IH]; intros seen.
  - by rewrite app_nil_r.
  - rewrite fmap_cons. cbn [foldl first_appearances]. cbn [safe_convert_value isna].
    assert (bool_decide (JStr x ∈ JStr <$> seen) = bool_decide (x ∈ seen)) as ->.
    { apply bool_decide_ext. rewrite list_elem_of_fmap. split.
      - by intros (y & [= <-] & Hy).
      - intros Hx. by exists x. }
    destruct (bool_decide (x ∈ seen)); [apply IH|].
    change [JStr x] with (JStr <$> [x]). rewrite <- fmap_app, IH, <- app_assoc.
    do 2 f_equal. cbn [app]. f_equal. apply first_appearances_ext.
    intros y. rewrite elem_of_app, !elem_of_cons, elem_of_nil. tauto.
Qed.

Lemma add_uniques_offered seen l :
  add_uniques (JStr <$> seen) (Pd.unique (VStr <$> l))
  = JStr <$> (seen ++ first_appearances seen (take 100 (first_appearances [] l))).
Proof.
  unfold add_uniques, Pd.unique.
  change (Pd.unique_acc [] (VStr <$> l)) with (Pd.unique_acc (VStr <$> []) (VStr <$> l)).
  rewrite (unique_acc_text [] l), <- fmap_take. apply add_new_texts.
Qed.

Lemma length_first_appearances_le seen l :
  (length (first_appearances seen l) ≤ length l)%nat.
Proof.
  revert seen. induction l as [|y l IH]; intros seen; [done|]. cbn [first_appearances].
  destruct (bool_decide _); cbn [length]; [specialize (IH seen)|specialize (IH (y :: seen))];
    lia.
Qed.

(** The tracker of a column after the batches [bs], the first of
    which has number [k]: it holds, each once, the texts it held and
    the texts offered by the batches with a number below 3. *)
Lemma scan_chunks_tracker hdr col i k bs st held :
  NoDup hdr → hdr !! i = Some col →
  unique_trackers st !! col = Some (JStr <$> held) →
  NoDup held → (length held ≤ 100 * (k `min` 3))%nat →
  ∃ held', unique_trackers
             (scan_chunks hdr k (Reader.frame_of_text hdr <$> bs) st) !! col
           = Some (JStr <$> held')
    ∧ NoDup held'
    ∧ ∀ x, x ∈ held' ↔ x ∈ held ∨ x ∈ concat (offered (length hdr) i <$> take (3 - k) bs).
Proof.
  intros Hnd Hi. pose proof (index_of_lookup _ _ _ Hnd Hi) as Hix.
  assert (col ∈ hdr) as Hin by (by eapply list_elem_of_lookup_2).
  revert k st held. induction bs as [|b bs IH]; intros k st held Hheld Hdistinct Hlen.
  - exists held. split_and!; [done|done|]. intros x. rewrite take_nil. cbn.
    rewrite elem_of_nil. tauto.
  - rewrite fmap_cons. cbn [scan_chunks].
    destruct (scan_chunk_column hdr k (Reader.frame_of_text hdr b) st col Hnd Hin)
      as (_ & Ht & _).
    destruct (getitem_text hdr b col i Hix) as [d Hget].
    unfold track_uniques in Ht. rewrite lookup_total_alt, Hheld, Hget in Ht.
    cbn [default s_values] in Ht. unfold id in Ht. rewrite length_fmap in Ht.
    destruct (k <? 3)%nat eqn:Hk.
    + apply Nat.ltb_lt in Hk.
      assert ((length held <? 1000)%nat = true) as Hcap by (apply Nat.ltb_lt; lia).
      rewrite Hcap in Ht. cbn [andb] in Ht.
      rewrite lookup_insert_eq, dropna_text, add_uniques_offered in Ht.
      fold (offered (length hdr) i b) in Ht.
      set (new := first_appearances held (offered (length hdr) i b)) in Ht.
      destruct (IH (S k) _ (held ++ new) Ht) as (held' & Hst & Hnd' & Hel).
      * apply NoDup_app. split_and!; [done| |apply first_appearances_NoDup].
        intros x Hx Hnew. apply first_appearances_elem in Hnew. tauto.
      * rewrite length_app.
        assert (length new ≤ 100)%nat.
        { etrans; [apply length_first_appearances_le|]. unfold offered.
          rewrite length_take. lia. }
        lia.
      * exists held'. split_and!; [done|done|]. intros x. rewrite Hel.
        replace (3 - k)%nat with (S (3 - S k)) by lia. cbn [take]. rewrite fmap_cons.
        cbn [concat]. rewrite !elem_of_app. unfold new.
        rewrite first_appearances_elem.
        destruct (decide (x ∈ held)); tauto.
    + apply Nat.ltb_ge in Hk. cbn [andb] in Ht. rewrite Hheld in Ht.
      destruct (IH (S k) _ held Ht Hdistinct) as (held' & Hst & Hnd' & Hel); [lia|].
      exists held'. split_and!; [done|done|]. intros x. rewrite Hel.
      replace (3 - k)%nat with 0%nat by lia. replace (3 - S k)%nat with 0%nat by lia.
      done.
Qed.

Lemma scanned_tracker n c col i :
  NoDup (header c) → header c !! i = Some col →
  ∃ held, unique_trackers (scanned n c) !! col = Some (JStr <$> held)
    ∧ length held = length (remove_dups (tracked_texts n c i)).
Proof.
  intros Hnd Hi. unfold scanned.
  assert (col ∈ header c) as Hin by (by eapply list_elem_of_lookup_2).
  destruct (scan_chunks_tracker (header c) col i 0 (Reader.batches n (records c))
              (scan_start (header c)) [] Hnd Hi) as (held & Hst & Hnd' & Hel).
  - simpl. rewrite lookup_dict_from_keys. by rewrite decide_True.
  - constructor.
  - simpl. lia.
  - exists held. split; [done|].
    apply Permutation_length, NoDup_Permutation; [done|apply NoDup_remove_dups|].
    intros x. rewrite Hel, elem_of_remove_dups, elem_of_nil. unfold tracked_texts.
    rewrite Nat.sub_0_r. tauto.
Qed.

End Tracked.

(** X23: for a file with distinct labels, unique_values is the number
    of distinct texts among those offered to the tracker: the first
    100 distinct texts that are not missing of each of the first three
    batches.  Texts further down a batch, and all texts after the
    third batch, are not counted. *)
Theorem unique_values_exact n fs path sample r c i col p :
  analyze_csv_quality n fs path sample = Ok r →
  fs !! path = Some (Csv c) → NoDup (header c) →
  header c !! i = Some col → column_analysis r !! col = Some p →
  unique_values p = UCount (Z.of_nat (length (remove_dups (tracked_texts n c i)))).
Proof.
  intros Hr Hc Hnd Hi Hp.
  destruct (column_analysis_lookup _ _ _ _ _ col Hr) as (c' & Hc' & Hcase).
  assert (c' = c) as -> by congruence.
  destruct Hcase as [[Hnot _]|(_ & tracker & missing & vals & Ht & Hm & Hs & Hprof)].
  { destruct Hnot. by eapply list_elem_of_lookup_2. }
  rewrite Hp in Hprof. injection Hprof as ->.
  unfold Analyzer.profile_column. rewrite Ht, Hm, Hs. cbn [unique_values].
  destruct (scanned_tracker n c col i Hnd Hi) as (held & Hheld & Hlen).
  pose proof (length_scanned_tracker n c col Hnd) as Hbound.
  rewrite lookup_total_alt, Ht in Hbound. cbn in Hbound.
  rewrite Ht in Hheld. injection Hheld as ->. rewrite length_fmap in *.
  rewrite decide_True by lia. by rewrite Hlen.
Qed.

Lemma unique_values_exact_witness :
  let fs := files people_world in
  ∃ r p, analyze_csv_quality 2 fs "uploads/people.csv" 10000 = Ok r
    ∧ column_analysis r !! "First Name" = Some p
    ∧ unique_values p
      = UCount (Z.of_nat (length (remove_dups (tracked_texts 2 people_file 0)))).
Proof.
  intros fs. eexists. eexists. split; [vm_compute; reflexivity |].
  split; [vm_compute; reflexivity |].
  eapply (unique_values_exact 2 fs "uploads/people.csv" 10000 _ people_file 0
            "First Name");
    [vm_compute; reflexivity | reflexivity
    | apply (bool_decide_unpack _); vm_compute; exact I
    | reflexivity | vm_compute; reflexivity].
Defined.

(** ** Plain runs and the last progress entry *)

Section Copy.
Context `{PandasKernels}.

(** Writing a batch that was just read gives back its records, when
    its texts are printed as they were read. *)
Lemma csv_records_frame hdr b :
  (∀ i s, (i < length hdr)%nat → Some s ∈ cells_at (length hdr) i b →
          let d := infer_dtype (cells_at (length hdr) i b) in
          isna (parse_cell d s) = false ∧ format_value (parse_cell d s) = s) →
  csv_records (frame_of_records hdr b) = Reader.fit (length hdr) <$> b.
Proof.
  intros Hk. unfold csv_records, frame_of_records. cbn [rows].
  rewrite <- !list_fmap_compose. apply list_fmap_ext. intros k r Hr. cbn.
  apply list_eq. intros i.
  rewrite list_lookup_fmap, lookup_zip_with, list_lookup_fmap.
  destruct (decide (i < length hdr)%nat) as [Hi|Hi].
  - rewrite lookup_seq_lt by done. cbn.
    destruct (lookup_lt_is_Some_2 (Reader.fit (length hdr) r) i) as [cell Hcell];
      [by rewrite length_fit|].
    rewrite Hcell. cbn. destruct cell as [s|]; [|done]. cbn. unfold csv_cell.
    rewrite <- list_fmap_compose.
    change ((λ r0, nth i r0 None) ∘ Reader.fit (length hdr))
      with (λ r0 : list (option string), nth i (Reader.fit (length hdr) r0) None).
    fold (cells_at (length hdr) i b).
    destruct (Hk i s Hi) as [-> ->]; [|done].
    unfold cells_at. apply list_elem_of_fmap. exists r. split.
    + by rewrite (nth_lookup_Some _ _ _ _ Hcell).
    + by eapply list_elem_of_lookup_2.
  - rewrite lookup_seq_ge by lia. cbn. symmetry. apply lookup_ge_None.
    rewrite length_fit. lia.
Qed.

Lemma processed_plain opts cols chunk : plain opts → processed opts cols chunk = chunk.
Proof.
  intros (Hm & Ht & Hc & Hs & _).
  unfold processed, relabelled, apply_preprocessing_options, handle_missing_values.
  rewrite Hm, Ht, Hc, Hs. by repeat case_decide.
Qed.

Lemma last_running_totals start sizes :
  sizes ≠ [] → last (running_totals start sizes) = Some (start + foldr Z.add 0 sizes).
Proof.
  revert start. induction sizes as [|n sizes IH]; intros start Hne; [done|].
  cbn [running_totals foldr]. destruct sizes as [|m sizes].
  - cbn. f_equal. lia.
  - rewrite last_cons. cbn [running_totals] in *. rewrite IH by done.
    cbn [foldr]. f_equal. lia.
Qed.

End Copy.

(** X24: with no option set, on a CSV file every text of which
    pandas prints as it read it, a run that does not write over the
    file it reads copies the file: the output has the header of the
    input and its records in order, each at the width of the header,
    whatever the number of batches; rows_processed is the number of
    records. *)
Theorem plain_run_copies_file `{PandasKernels} path opts w c :
  files w !! path = Some (Csv c) → plain opts → output_of path ≠ path →
  prints_as_read c →
  ∃ r w' c', preprocess_csv_task_chunked path opts w = (r, w')
    ∧ status r = "success"
    ∧ files w' !! output_of path = Some (Csv c')
    ∧ header c' = header c
    ∧ records c' = table c
    ∧ rows_processed r = Some (Z.of_nat (length (records c))).
Proof.
  intros Hf Hplain _ Hk. pose proof Hplain as (_ & _ & _ & Hs & Hd).
  unfold preprocess_csv_task_chunked.
  rewrite (preprocess_body_streaming path opts w c Hf Hd). cbn zeta.
  assert (processed opts (labels opts c) <$> chunks_of c = chunks_of c) as ->.
  { rewrite <- (list_fmap_id (chunks_of c)) at 2. apply list_fmap_ext.
    intros _ chunk _. by apply processed_plain. }
  assert (concat (csv_records <$> chunks_of c) = table c) as Hrecs.
  { unfold chunks_of, table. rewrite <- list_fmap_compose.
    rewrite (list_fmap_ext (csv_records ∘ frame_of_records (header c))
               (fmap (Reader.fit (length (header c))))
               (Reader.batches CHUNK_SIZE (records c))).
    - rewrite <- (batches_concat CHUNK_SIZE (records c)) at 2 by apply CHUNK_SIZE_positive.
      generalize (Reader.batches CHUNK_SIZE (records c)). intros l.
      induction l as [|x l IHl]; [done|]. rewrite fmap_cons. cbn [concat].
      by rewrite fmap_app, IHl.
    - intros k b Hb. cbn. apply csv_records_frame. intros i s Hi Hin.
      apply Hk; [by eapply list_elem_of_lookup_2|done..]. }
  rewrite len_chunks_of.
  assert (∃ df rest, chunks_of c = df :: rest ∧ columns df = header c)
    as (df & rest & Hchunks & Hcols).
  { unfold chunks_of.
    destruct (Reader.batches CHUNK_SIZE (records c)) as [|b bs] eqn:Hb;
      [by apply batches_nonempty in Hb|]. rewrite fmap_cons. eauto. }
  rewrite Hchunks in *.
  destruct (stream_files_first (output_of path) df rest (files w)) as (c' & Hc' & Hh & Hr).
  eexists _, _, c'. split; [done|].
  cbn [status files rows_processed]. split_and!; [done|done|congruence|congruence|done].
Qed.

Lemma plain_run_copies_file_witness :
  ∃ r w' c', preprocess_csv_task_chunked (H := text_kernels) "uploads/people.csv"
               no_options people_world = (r, w')
    ∧ status r = "success"
    ∧ files w' !! output_of "uploads/people.csv" = Some (Csv c')
    ∧ header c' = header people_file
    ∧ records c' = table people_file
    ∧ rows_processed r = Some (Z.of_nat (length (records people_file))).
Proof.
  apply (plain_run_copies_file (H := text_kernels) "uploads/people.csv" no_options
           people_world people_file);
    [reflexivity | repeat split
    | intros Heq; vm_compute in Heq; discriminate Heq
    | intros b i s _ _ _; split; reflexivity].
Defined.

(** X25: a streaming run on a CSV file that does not write over the
    file it reads (the output path is not the input path) and whose
    labels, as the engine computes them, are distinct (and computed
    from ASCII labels when they are standardized) succeeds, sends at
    least one progress entry, and the last one it sends carries the
    rows_processed of the result it returns. *)
Theorem last_progress_is_rows_processed `{PandasKernels} path opts w c :
  files w !! path = Some (Csv c) → remove_duplicates opts = false →
  output_of path ≠ path → usable_labels opts c →
  ∃ r w' n, preprocess_csv_task_chunked path opts w = (r, w')
    ∧ status r = "success"
    ∧ last (redis w') = Some (progress_entry path n)
    ∧ rows_processed r = Some n.
Proof.
  intros Hf Hd _ _. unfold preprocess_csv_task_chunked.
  rewrite (preprocess_body_streaming path opts w c Hf Hd). cbn zeta.
  set (sizes := Pd.len <$> (processed opts (labels opts c) <$> chunks_of c)).
  assert (sizes ≠ []) as Hne.
  { unfold sizes, chunks_of.
    destruct (Reader.batches CHUNK_SIZE (records c)) as [|b bs] eqn:Hb;
      [by apply batches_nonempty in Hb|done]. }
  eexists _, _, _. split; [done|]. cbn [status redis rows_processed].
  split_and!; [done| |done].
  rewrite last_app. rewrite fmap_last, (last_running_totals 0 sizes Hne). cbn.
  by rewrite Z.add_0_l.
Qed.

Lemma last_progress_is_rows_processed_witness :
  let opts := only_handle_missing "drop" in
  ∃ r w' n, preprocess_csv_task_chunked (H := text_kernels) "uploads/people.csv" opts
              people_world = (r, w')
    ∧ status r = "success"
    ∧ last (redis w') = Some (progress_entry "uploads/people.csv" n)
    ∧ rows_processed r = Some n.
Proof.
  intros opts.
  apply (last_progress_is_rows_processed (H := text_kernels) "uploads/people.csv" opts
           people_world people_file);
    [reflexivity | reflexivity
    | intros Heq; vm_compute in Heq; discriminate Heq
    | split; [apply (bool_decide_unpack _); vm_compute; exact I
             | intros _; reflexivity]].
Defined.
